(** * mate-slideshow: a verification development for [mate_slideshow.py]

    The program builds the XML descriptor of a MATE background slideshow
    from the images of a directory, writes it next to the staged images
    under /usr/share/backgrounds/ and copies the directory's entries there.

    The Python code is embedded shallowly:
    - integers are [Z]; the one floating-point expression of the program,
      [image_duration * 60.0], is evaluated in a model of IEEE-754 binary64
      restricted to the values it can reach (module [PyFloat]);
    - [pathlib.Path] values are records of a root and a list of components;
    - the file system is an ordered association list from paths to nodes,
      the order being the order in which a directory scan returns entries;
    - statements that touch the file system or standard output are functions
      [World -> result A * World]; a raised exception keeps the world as it
      was when the exception was raised.

    What the embedding takes from the environment:
    - a string is the sequence of bytes the operating system has for it
      (file names, command-line arguments); the locale is a UTF-8 one, so a
      name the system gives is turned into text with the undecodable bytes
      escaped, and text written to a file in text mode is encoded strictly:
      a string can be written exactly when its bytes are valid UTF-8, and
      [UnicodeEncodeError] is raised otherwise;
    - standard output takes every string (its error handler escapes what
      cannot be encoded, as in the POSIX locale and in UTF-8 mode);
    - a file is found under the path the program writes, compared part by
      part: there is no current directory against which a relative path
      would name the same file as an absolute one, no symbolic link, no
      meaning given to a ".." part, no permission, and a write never runs
      out of space.  The statements on the copy step and on a whole run,
      which need the source and the target directory to be different
      directories, take both as absolute paths without ".." part
      ([plain]). *)

From Stdlib Require Import ZArith List String Ascii Bool Lia DecimalString
  Permutation.
Import ListNotations.

Local Open Scope string_scope.
Local Open Scope Z_scope.

(** ** Python values shared by all parts *)

(** A [pathlib.PurePosixPath]: its root ("", "/" or "//") and its parts
    after the root. *)
Inductive Root : Type := NoRoot | Slash | DoubleSlash.

Record Path : Type := mkPath { root : Root; parts : list string }.

(** The exceptions the program defines and the built-in ones its statements
    can raise. *)
Inductive exn : Type :=
| SystemExit (code : Z)
| ImageDirectoryPathError (path : Path)
| ImageDurationError (duration : Z)
| TransitionDurationError (duration : Z)
| OverflowError
| IndexError
| FileNotFoundError (path : Path)
| FileExistsError (path : Path)
| NotADirectoryError (path : Path)
| IsADirectoryError (path : Path)
| SameFileError (path : Path)
| UnicodeEncodeError.

Inductive result (A : Type) : Type :=
| Ok (value : A)
| Raise (e : exn).

Arguments Ok {A} value.
Arguments Raise {A} e.

(** [str(n)] for a Python int. *)
Definition str_int (n : Z) : string := NilZero.string_of_int (Z.to_int n).

(** ** Floating point: the values of [int * 60.0] and their [repr] *)

Module PyFloat.

(** A binary64 value with an integral magnitude, an infinity, or NaN.
    Every value [n * 60.0] with [n] an int is of this shape. *)
Inductive pyfloat : Type :=
| Finite (negative : bool) (magnitude : Z)
| Inf (negative : bool)
| NaN.

(** Round a non-negative integer to 53 significant bits, ties to even. *)
Definition round53 (c : Z) : Z :=
  let s := Z.log2 c - 52 in
  if s <=? 0 then c
  else
    let q := Z.shiftr c s in
    let r := c - Z.shiftl q s in
    let half := Z.shiftl 1 (s - 1) in
    if r <? half then Z.shiftl q s
    else if half <? r then Z.shiftl (q + 1) s
    else if Z.even q then Z.shiftl q s
    else Z.shiftl (q + 1) s.

(** The first magnitude beyond the largest finite double. *)
Definition overflow_threshold : Z := 2 ^ 1024.

(** Half a unit in the last place below it: the first magnitude that
    rounds to [overflow_threshold]. *)
Definition float_limit : Z := 2 ^ 1024 - 2 ^ 970.

(** Conversion of an int operand ([PyLong_AsDouble]): correctly rounded,
    [OverflowError] when the rounded value is not finite. *)
Definition float_of_int (n : Z) : result pyfloat :=
  let m := round53 (Z.abs n) in
  if overflow_threshold <=? m then Raise OverflowError
  else Ok (Finite (n <? 0) m).

(** Multiplication of two doubles; an overflow gives an infinity. *)
Definition float_mul (a b : pyfloat) : pyfloat :=
  match a, b with
  | Finite sa ma, Finite sb mb =>
      let m := round53 (ma * mb) in
      if overflow_threshold <=? m then Inf (xorb sa sb)
      else Finite (xorb sa sb) m
  | Finite sa ma, Inf sb =>
      if ma =? 0 then NaN else Inf (xorb sa sb)
  | Inf sa, Finite sb mb =>
      if mb =? 0 then NaN else Inf (xorb sa sb)
  | Inf sa, Inf sb => Inf (xorb sa sb)
  | _, _ => NaN
  end.

(** The literal [60.0]. *)
Definition sixty : pyfloat := Finite false 60.

(** [int * float]: the int operand is converted, then multiplied. *)
Definition int_mul_float (n : Z) (b : pyfloat) : result pyfloat :=
  match float_of_int n with
  | Ok a => Ok (float_mul a b)
  | Raise e => Raise e
  end.

(** The shortest decimal that reads back as [x] (the digits [repr]
    prints).  At step [j] the candidates are the two multiples of [10^j]
    around [x]; the larger [j], the fewer significant digits.  Among two
    candidates that read back as [x] the nearer one is taken, and on a
    tie the one whose last digit is even. *)
Fixpoint shortest (j : nat) (x : Z) : Z :=
  let u := 10 ^ Z.of_nat j in
  let lo := x / u * u in
  let hi := lo + u in
  let lo_ok := round53 lo =? x in
  let hi_ok := round53 hi =? x in
  let next := match j with O => x | S j' => shortest j' x end in
  if lo_ok && hi_ok then
    if x - lo <? hi - x then lo
    else if hi - x <? x - lo then hi
    else if Z.even (x / u) then lo else hi
  else if lo_ok then lo
  else if hi_ok then hi
  else next.

(** The decimal of a positive double of integral magnitude [x]. *)
Definition shortest_decimal (x : Z) : Z :=
  shortest (Z.to_nat (Z.log2 x)) x.

Fixpoint rstrip_zeros (s : string) : string :=
  match s with
  | EmptyString => EmptyString
  | String c rest =>
      match rstrip_zeros rest with
      | EmptyString => if Ascii.eqb c "0" then EmptyString
                       else String c EmptyString
      | rest' => String c rest'
      end
  end.

(** Exponent notation: [d[.ddd]e+XX], the exponent with two digits at
    least. *)
Definition repr_exponent (c : Z) : string :=
  let s := str_int c in
  let e := Z.of_nat (String.length s) - 1 in
  let mantissa :=
    match rstrip_zeros s with
    | EmptyString => "0"
    | String d EmptyString => String d EmptyString
    | String d rest => String d ("." ++ rest)
    end in
  mantissa ++ "e+" ++ (if e <? 10 then "0" else "") ++ str_int e.

(** [repr] of a positive magnitude: fixed notation with [.0] appended
    while the decimal point is at most 16 digits in, exponent notation
    beyond. *)
Definition repr_magnitude (x : Z) : string :=
  if x =? 0 then "0.0"
  else
    let c := shortest_decimal x in
    if 10 ^ 16 <=? c then repr_exponent c
    else str_int c ++ ".0".

(** [repr(x)], which is also what an f-string prints for a float. *)
Definition float_repr (x : pyfloat) : string :=
  match x with
  | Finite neg m => (if neg then "-" else "") ++ repr_magnitude m
  | Inf neg => if neg then "-inf" else "inf"
  | NaN => "nan"
  end.

End PyFloat.

(** ** [pathlib] paths *)

Definition slash : ascii := "/"%char.

(** [s.split('/')]. *)
Fixpoint split_slash (s : string) : list string :=
  match s with
  | EmptyString => [EmptyString]
  | String c rest =>
      if Ascii.eqb c slash then EmptyString :: split_slash rest
      else match split_slash rest with
           | h :: t => String c h :: t
           | [] => [String c EmptyString]
           end
  end.

(** The root of a path string: two leading slashes are kept apart, any
    other number of them is one slash. *)
Definition splitroot (s : string) : Root :=
  match s with
  | String c1 (String c2 (String c3 _)) =>
      if Ascii.eqb c1 slash then
        if Ascii.eqb c2 slash then
          if Ascii.eqb c3 slash then Slash else DoubleSlash
        else Slash
      else NoRoot
  | String c1 (String c2 EmptyString) =>
      if Ascii.eqb c1 slash then
        if Ascii.eqb c2 slash then DoubleSlash else Slash
      else NoRoot
  | String c1 EmptyString => if Ascii.eqb c1 slash then Slash else NoRoot
  | EmptyString => NoRoot
  end.

Definition is_component (s : string) : bool :=
  negb (String.eqb s "") && negb (String.eqb s ".").

(** [Path(s)] for a string: empty and "." components are dropped. *)
Definition parse_path (s : string) : Path :=
  mkPath (splitroot s) (filter is_component (split_slash s)).

(** [Path(p, s)] and [p / s] with [s] a string: a rooted [s] replaces
    [p], another one is appended. *)
Definition joinpath (p : Path) (s : string) : Path :=
  let q := parse_path s in
  match root q with
  | NoRoot => mkPath (root p) (parts p ++ parts q)%list
  | _ => q
  end.

(** [p.name]: the last part, or the empty string. *)
Definition name (p : Path) : string := last (parts p) "".

(** [p.parent]. *)
Definition parent (p : Path) : Path := mkPath (root p) (removelast (parts p)).

Definition root_str (r : Root) : string :=
  match r with NoRoot => "" | Slash => "/" | DoubleSlash => "//" end.

(** [str(p)]. *)
Definition path_str (p : Path) : string :=
  match root p, parts p with
  | NoRoot, [] => "."
  | r, ps => root_str r ++ String.concat "/" ps
  end.

(** The child [p / entry] as a directory scan builds it (no parsing). *)
Definition child (p : Path) (entry : string) : Path :=
  mkPath (root p) (parts p ++ [entry])%list.

Definition Root_eqb (a b : Root) : bool :=
  match a, b with
  | NoRoot, NoRoot | Slash, Slash | DoubleSlash, DoubleSlash => true
  | _, _ => false
  end.

Fixpoint parts_eqb (a b : list string) : bool :=
  match a, b with
  | [], [] => true
  | x :: a', y :: b' => String.eqb x y && parts_eqb a' b'
  | _, _ => false
  end.

Definition Path_eqb (a b : Path) : bool :=
  Root_eqb (root a) (root b) && parts_eqb (parts a) (parts b).

(** ** The file system and standard output *)

Inductive node : Type :=
| File (content : string)
| Dir.

(** Entries in the order a directory scan returns them.  A path names
    one node; the root and the current directory (a path without parts)
    are directories that always exist.  A node is found under the path
    the program writes: symbolic links, ".." components and permissions
    are not represented, and a write never runs out of space. *)
Definition FS : Type := list (Path * node).

Fixpoint assoc (fs : FS) (p : Path) : option node :=
  match fs with
  | [] => None
  | (k, n) :: rest => if Path_eqb k p then Some n else assoc rest p
  end.

Definition lookup (fs : FS) (p : Path) : option node :=
  match parts p with
  | [] => Some Dir
  | _ => assoc fs p
  end.

Definition is_dir (fs : FS) (p : Path) : bool :=
  match lookup fs p with Some Dir => true | _ => false end.

Definition exists_ (fs : FS) (p : Path) : bool :=
  match lookup fs p with Some _ => true | None => false end.

(** The names of the entries of directory [d], in scan order. *)
Fixpoint scandir (fs : FS) (d : Path) : list string :=
  match fs with
  | [] => []
  | (k, _) :: rest =>
      if Path_eqb (parent k) d && negb (Path_eqb k d)
      then name k :: scandir rest d
      else scandir rest d
  end.

(** [fnmatch] for patterns made of literal characters, [*] and [?]
    (the program's patterns have no bracket class); case-sensitive. *)
Fixpoint fnmatch (pat : string) : string -> bool :=
  match pat with
  | EmptyString => fun s => String.eqb s ""
  | String c pat' =>
      if Ascii.eqb c "*" then
        fix star (s : string) : bool :=
          fnmatch pat' s ||
          match s with
          | EmptyString => false
          | String _ s' => star s'
          end
      else if Ascii.eqb c "?" then
        fun s => match s with
                 | EmptyString => false
                 | String _ s' => fnmatch pat' s'
                 end
      else
        fun s => match s with
                 | EmptyString => false
                 | String c' s' => Ascii.eqb c c' && fnmatch pat' s'
                 end
  end.

(** [d.glob(pattern)] for a pattern of one component: the entries of [d]
    whose name matches, files and directories alike; nothing when [d] is
    not a directory. *)
Definition glob (fs : FS) (d : Path) (pattern : string) : list Path :=
  if is_dir fs d
  then map (child d) (filter (fnmatch pattern) (scandir fs d))
  else [].

(** Resolution of the directories above [p]: each proper prefix of its
    parts must exist and be a directory ([done] is checked before the next
    component is entered). *)
Fixpoint walk (fs : FS) (r : Root) (done todo : list string) (p : Path)
  : result unit :=
  match todo with
  | [] => Ok tt
  | c :: todo' =>
      match lookup fs (mkPath r done) with
      | Some Dir => walk fs r (done ++ [c])%list todo' p
      | Some (File _) => Raise (NotADirectoryError p)
      | None => Raise (FileNotFoundError p)
      end
  end.

Definition resolve_parent (fs : FS) (p : Path) : result unit :=
  walk fs (root p) [] (parts p) p.

(** Replace the node at [p], or add it as the last entry. *)
Fixpoint store (fs : FS) (p : Path) (n : node) : FS :=
  match fs with
  | [] => [(p, n)]
  | (k, m) :: rest =>
      if Path_eqb k p then (k, n) :: rest else (k, m) :: store rest p n
  end.

(** [os.mkdir(p)]. *)
Definition os_mkdir (p : Path) (fs : FS) : result unit * FS :=
  match resolve_parent fs p with
  | Raise e => (Raise e, fs)
  | Ok _ =>
      if exists_ fs p then (Raise (FileExistsError p), fs)
      else (Ok tt, store fs p Dir)
  end.

(** [open(p, 'wb')], the write of the bytes, close: the writing half of
    [shutil.copyfile]. *)
Definition write_file (p : Path) (content : string) (fs : FS)
  : result unit * FS :=
  match resolve_parent fs p with
  | Raise e => (Raise e, fs)
  | Ok _ =>
      match lookup fs p with
      | Some Dir => (Raise (IsADirectoryError p), fs)
      | _ => (Ok tt, store fs p (File content))
      end
  end.

(** [open(p, 'rb')] and read. *)
Definition read_file (p : Path) (fs : FS) : result string :=
  match resolve_parent fs p with
  | Raise e => Raise e
  | Ok _ =>
      match lookup fs p with
      | Some (File c) => Ok c
      | Some Dir => Raise (IsADirectoryError p)
      | None => Raise (FileNotFoundError p)
      end
  end.

(** [shutil.copyfile(src, dst)]. *)
Definition copyfile (src dst : Path) (fs : FS) : result unit * FS :=
  if Path_eqb src dst && exists_ fs src
  then (Raise (SameFileError src), fs)
  else
    match read_file src fs with
    | Raise e => (Raise e, fs)
    | Ok c => write_file dst c fs
    end.

(** [shutil.copy(src, dst)]: into [dst] when it is a directory. *)
Definition shutil_copy (src dst : Path) (fs : FS) : result unit * FS :=
  let dst' := if is_dir fs dst then joinpath dst (name src) else dst in
  copyfile src dst' fs.

Record World : Type := mkWorld { fs : FS; stdout : list string }.

(** A statement: it returns or raises, and leaves a world behind. *)
Definition M (A : Type) : Type := World -> result A * World.

Definition ret {A} (x : A) : M A := fun w => (Ok x, w).

Definition bind {A B} (m : M A) (k : A -> M B) : M B :=
  fun w =>
    match m w with
    | (Ok x, w') => k x w'
    | (Raise e, w') => (Raise e, w')
    end.

Notation "x <- m ;; k" := (bind m (fun x => k))
  (at level 61, m at next level, right associativity).
Notation "m ;;; k" := (bind m (fun _ => k))
  (at level 61, right associativity).

(** Lift a file-system operation and a pure computation. *)
Definition on_fs {A} (op : FS -> result A * FS) : M A :=
  fun w =>
    let (r, fs') := op (fs w) in (r, mkWorld fs' (stdout w)).

Definition lift {A} (r : result A) : M A := fun w => (r, w).

Definition nl : string := String "010"%char EmptyString.

(** [print(s)]; standard output takes every string. *)
Definition print (s : string) : M unit :=
  fun w => (Ok tt, mkWorld (fs w) (stdout w ++ [(s ++ nl)%string])%list).

(** A [for] loop over a list whose body is a statement. *)
Fixpoint for_each {A} (xs : list A) (body : A -> M unit) : M unit :=
  match xs with
  | [] => ret tt
  | x :: xs' => body x ;;; for_each xs' body
  end.

(** [Path.mkdir(parents=False, exist_ok=True)]. *)
Definition mkdir_exist_ok (p : Path) (fs : FS) : result unit * FS :=
  match os_mkdir p fs with
  | (Ok _, fs') => (Ok tt, fs')
  | (Raise (FileNotFoundError q), fs') => (Raise (FileNotFoundError q), fs')
  | (Raise e, fs') => if is_dir fs' p then (Ok tt, fs') else (Raise e, fs')
  end.

(** [Path.mkdir(parents=True, exist_ok=True)] for the path of root [r]
    whose parts, last first, are [rparts]; the recursion is on the
    parent, as in [pathlib]. *)
Fixpoint mkdir_rec (r : Root) (rparts : list string) (fs : FS)
  : result unit * FS :=
  let p := mkPath r (rev rparts) in
  match os_mkdir p fs with
  | (Ok _, fs') => (Ok tt, fs')
  | (Raise (FileNotFoundError q), fs') =>
      match rparts with
      | [] => (Raise (FileNotFoundError q), fs')
      | _ :: rparts' =>
          match mkdir_rec r rparts' fs' with
          | (Ok _, fs'') => mkdir_exist_ok p fs''
          | (Raise e, fs'') => (Raise e, fs'')
          end
      end
  | (Raise e, fs') => if is_dir fs' p then (Ok tt, fs') else (Raise e, fs')
  end.

Definition mkdir_parents_exist_ok (p : Path) (fs : FS) : result unit * FS :=
  mkdir_rec (root p) (rev (parts p)) fs.

(** ** The program *)

Definition USR_BACKGROUNDS_PATH : Path := parse_path "/usr/share/backgrounds/".

(** [argparse.Namespace] as [parse_arguments] fills it. *)
Record Namespace : Type := mkNamespace {
  images_directory_path : Path;
  image_duration : Z;
  transition_duration : Z;
  directory_name : option string
}.

(** [elements[i]] on a list, negative indices counting from the end. *)
Definition getitem {A} (elements : list A) (i : Z) : result A :=
  let n := Z.of_nat (List.length elements) in
  let k := if i <? 0 then i + n else i in
  if (0 <=? k) && (k <? n) then
    match nth_error elements (Z.to_nat k) with
    | Some x => Ok x
    | None => Raise IndexError
    end
  else Raise IndexError.

(** [range(lo, hi)]. *)
Definition range (lo hi : Z) : list Z :=
  map (fun k => lo + Z.of_nat k) (seq 0 (Z.to_nat (hi - lo))).

(** The generator [pair_elements]: the outcome of each resumption, in
    order. *)
Definition pair_elements {A} (elements : list A) : list (result (A * A)) :=
  let elements_len := Z.of_nat (List.length elements) in
  map (fun item_index =>
         let next_item_index :=
           if item_index <? elements_len - 1 then item_index + 1 else 0 in
         match getitem elements item_index with
         | Raise e => Raise e
         | Ok x =>
             match getitem elements next_item_index with
             | Raise e => Raise e
             | Ok y => Ok (x, y)
             end
         end)
      (range 0 elements_len).

Definition glob_all_extensions (fs : FS) (path : Path)
  (extensions : list string) : list Path :=
  flat_map (fun file_extension => glob fs path ("*." ++ file_extension))
           extensions.

Definition extensions : list string := ["jpg"; "jpeg"; "png"].

(** The initial list of [create_xml_file]: nine elements, the literals
    for the year and the month being adjacent in the source and so one
    element. *)
Definition initial_xml : list string :=
  [ "<background>" ++ nl;
    "-" ++ nl;
    "<starttime>" ++ nl;
    ("<year>2009</year>" ++ nl) ++ ("<month>08</month>" ++ nl);
    "<day>04</day>" ++ nl;
    "<hour>00</hour>" ++ nl;
    "<minute>00</minute>" ++ nl;
    "<second>00</second>" ++ nl;
    "</starttime>" ++ nl ].

(** The list [image_xml] of one iteration. *)
Definition image_xml (image_duration transition_duration : Z)
  (target_directory_path image_path next_image_path : Path)
  : result (list string) :=
  match PyFloat.int_mul_float image_duration PyFloat.sixty with
  | Raise e => Raise e
  | Ok seconds =>
      Ok [ "-" ++ nl;
           "<static>" ++ nl;
           "<duration>" ++ PyFloat.float_repr seconds ++ "</duration>" ++ nl;
           "<file>"
             ++ path_str (joinpath target_directory_path (name image_path))
             ++ "</file>" ++ nl;
           "</static>" ++ nl;
           "-" ++ nl;
           "<transition>" ++ nl;
           "<duration>" ++ str_int transition_duration ++ "</duration>" ++ nl;
           "<from>"
             ++ path_str (joinpath target_directory_path (name image_path))
             ++ "</from>" ++ nl;
           "<to>"
             ++ path_str (joinpath target_directory_path
                                   (name next_image_path))
             ++ "</to>" ++ nl;
           "</transition>" ++ nl ]
  end.

(** The [for] loop of [create_xml_file]: resume the generator, build
    [image_xml], extend [xml_content]. *)
Fixpoint extend_loop (image_duration transition_duration : Z)
  (target_directory_path : Path) (pairs : list (result (Path * Path)))
  (xml_content : list string) : result (list string) :=
  match pairs with
  | [] => Ok xml_content
  | Raise e :: _ => Raise e
  | Ok (image_path, next_image_path) :: pairs' =>
      match image_xml image_duration transition_duration
                      target_directory_path image_path next_image_path with
      | Raise e => Raise e
      | Ok block =>
          extend_loop image_duration transition_duration
                      target_directory_path pairs' (xml_content ++ block)%list
      end
  end.

(** The value of [xml_content] when [create_xml_file] reaches the write,
    for the images the enumeration returned. *)
Definition xml_content (images : list Path)
  (image_duration transition_duration : Z) (target_directory_path : Path)
  : result (list string) :=
  match extend_loop image_duration transition_duration target_directory_path
                    (pair_elements images) initial_xml with
  | Raise e => Raise e
  | Ok content => Ok (content ++ [("</background>" ++ nl)%string])%list
  end.

(** Strict UTF-8 on the bytes of a string: [need] continuation bytes are
    awaited, the next of them between [lo] and [hi] (no overlong form, no
    surrogate, nothing beyond U+10FFFF). *)
Fixpoint utf8_from (need : nat) (lo hi : N) (s : string) : bool :=
  match s with
  | EmptyString => match need with O => true | S _ => false end
  | String c rest =>
      let b := N_of_ascii c in
      match need with
      | O =>
          if (b <? 128)%N then utf8_from 0 128 191 rest
          else if (194 <=? b)%N && (b <=? 223)%N then utf8_from 1 128 191 rest
          else if (b =? 224)%N then utf8_from 2 160 191 rest
          else if (b =? 237)%N then utf8_from 2 128 159 rest
          else if (225 <=? b)%N && (b <=? 239)%N then utf8_from 2 128 191 rest
          else if (b =? 240)%N then utf8_from 3 144 191 rest
          else if (b =? 244)%N then utf8_from 3 128 143 rest
          else if (241 <=? b)%N && (b <=? 243)%N then utf8_from 3 128 191 rest
          else false
      | S need' =>
          if (lo <=? b)%N && (b <=? hi)%N then utf8_from need' 128 191 rest
          else false
      end
  end.

(** The text [s] can be encoded: the file object does it with the
    locale's encoding, UTF-8, and the error handler [strict]. *)
Definition encodable (s : string) : bool := utf8_from 0 128 191 s.

(** [open(p, 'w')]: the file is created, or emptied when it exists. *)
Definition open_w (p : Path) (fs : FS) : result unit * FS :=
  match resolve_parent fs p with
  | Raise e => (Raise e, fs)
  | Ok _ =>
      match lookup fs p with
      | Some Dir => (Raise (IsADirectoryError p), fs)
      | _ => (Ok tt, store fs p (File ""))
      end
  end.

(** [f.writelines(lines)] on a text file: each element is encoded and
    appended in turn; the first one that cannot be encoded raises
    [UnicodeEncodeError], the elements before it staying written. *)
Fixpoint writelines (lines : list string) (written : string)
  : result unit * string :=
  match lines with
  | [] => (Ok tt, written)
  | line :: lines' =>
      if encodable line then writelines lines' (written ++ line)
      else (Raise UnicodeEncodeError, written)
  end.

(** [with open(p, 'w') as f: f.writelines(lines)]: what was written is
    in the file when the block is left, be it by an exception. *)
Definition write_lines (p : Path) (lines : list string) (fs : FS)
  : result unit * FS :=
  match open_w p fs with
  | (Raise e, fs') => (Raise e, fs')
  | (Ok _, fs') =>
      let (r, written) := writelines lines "" in
      (r, store fs' p (File written))
  end.

Definition create_xml_file (images_directory_path : Path)
  (image_duration transition_duration : Z) (target_directory_path : Path)
  : M unit :=
  fun w =>
    let images :=
      glob_all_extensions (fs w) images_directory_path extensions in
    match xml_content images image_duration transition_duration
                      target_directory_path with
    | Raise e => (Raise e, w)
    | Ok content =>
        let xml_file_path :=
          joinpath target_directory_path
                   (name target_directory_path ++ ".xml") in
        on_fs (write_lines xml_file_path content) w
    end.

(** [parse_arguments], from the outcome of [parser.parse_args()]. *)
Definition parse_arguments (parsed : result Namespace) : M Namespace :=
  arguments <- lift parsed ;;
  fun w =>
    if negb (is_dir (fs w) (images_directory_path arguments))
    then (Raise (ImageDirectoryPathError (images_directory_path arguments)), w)
    else if image_duration arguments <=? 0
    then (Raise (ImageDurationError (image_duration arguments)), w)
    else if transition_duration arguments <? 0
    then (Raise (TransitionDurationError (transition_duration arguments)), w)
    else (Ok arguments, w).

(** [a or b] on an optional string: [None] and the empty string are
    false. *)
Definition or_else (a : option string) (b : string) : string :=
  match a with
  | None => b
  | Some EmptyString => b
  | Some s => s
  end.

(** The copy loop of [main]. *)
Definition copy_images (source target_directory_path : Path) : M unit :=
  fun w =>
    for_each (glob (fs w) source "*")
             (fun image_path =>
                let target_path :=
                  joinpath target_directory_path (name image_path) in
                on_fs (shutil_copy image_path target_path))
             w.

(** [main], up to its [return 0]. *)
Definition main (parsed : result Namespace) : M Z :=
  arguments <- parse_arguments parsed ;;
  let images_directory_name :=
    or_else (directory_name arguments)
            (name (images_directory_path arguments)) in
  let target_directory_path :=
    joinpath USR_BACKGROUNDS_PATH images_directory_name in
  print ("[INFO] Creating " ++ path_str target_directory_path) ;;;
  on_fs (mkdir_parents_exist_ok target_directory_path) ;;;
  print ("[INFO] Creating xml file in "
           ++ path_str (images_directory_path arguments)) ;;;
  create_xml_file (images_directory_path arguments)
                  (image_duration arguments)
                  (transition_duration arguments)
                  target_directory_path ;;;
  print ("[INFO] Copying images to " ++ path_str target_directory_path) ;;;
  copy_images (images_directory_path arguments) target_directory_path ;;;
  print "[INFO] Done." ;;;
  ret 0.

(** ** Reading a descriptor back

    The observations the statements below are about: the segments of a
    list of descriptor elements and the text of the written file. *)

(** [s] without the prefix [pre], when it has it. *)
Fixpoint strip_prefix (pre s : string) : option string :=
  match pre with
  | EmptyString => Some s
  | String c pre' =>
      match s with
      | EmptyString => None
      | String c' s' =>
          if Ascii.eqb c c' then strip_prefix pre' s' else None
      end
  end.

(** [s] without the suffix [suf], when it has it. *)
Fixpoint strip_suffix (suf s : string) : option string :=
  if String.eqb s suf then Some EmptyString
  else match s with
       | EmptyString => None
       | String c s' =>
           match strip_suffix suf s' with
           | Some r => Some (String c r)
           | None => None
           end
       end.

(** The text of the element [<tag>text</tag>\n]. *)
Definition untag (tag element : string) : option string :=
  match strip_prefix ("<" ++ tag ++ ">") element with
  | Some rest => strip_suffix ("</" ++ tag ++ ">" ++ nl) rest
  | None => None
  end.

Definition static_marker : string := "<static>" ++ nl.
Definition transition_marker : string := "<transition>" ++ nl.

(** The number of segments of a kind: the elements that open one. *)
Definition count_segments (marker : string) (content : list string) : nat :=
  List.length (filter (String.eqb marker) content).

(** The duration texts of the segments opened by [marker]. *)
Fixpoint durations (marker : string) (content : list string) : list string :=
  match content with
  | [] => []
  | m :: rest =>
      if String.eqb m marker then
        match rest with
        | e :: _ =>
            match untag "duration" e with
            | Some d => d :: durations marker rest
            | None => durations marker rest
            end
        | [] => []
        end
      else durations marker rest
  end.

(** The file paths of the static segments. *)
Fixpoint static_files (content : list string) : list string :=
  match content with
  | [] => []
  | e :: rest =>
      match untag "file" e with
      | Some f => f :: static_files rest
      | None => static_files rest
      end
  end.

(** The (from, to) paths of the transition segments. *)
Fixpoint transitions (content : list string) : list (string * string) :=
  match content with
  | [] => []
  | e :: rest =>
      match untag "from" e, rest with
      | Some f, e' :: _ =>
          match untag "to" e' with
          | Some t => (f, t) :: transitions rest
          | None => transitions rest
          end
      | _, _ => transitions rest
      end
  end.

(** The path a descriptor gives to an image: its name under the
    destination directory. *)
Definition destination (target_directory_path image_path : Path) : string :=
  path_str (joinpath target_directory_path (name image_path)).

(** The elements of a static segment and of a transition segment, from
    the texts they carry. *)
Definition static_segment (duration file : string) : list string :=
  [ "-" ++ nl;
    "<static>" ++ nl;
    "<duration>" ++ duration ++ "</duration>" ++ nl;
    "<file>" ++ file ++ "</file>" ++ nl;
    "</static>" ++ nl ].

Definition transition_segment (duration from to : string) : list string :=
  [ "-" ++ nl;
    "<transition>" ++ nl;
    "<duration>" ++ duration ++ "</duration>" ++ nl;
    "<from>" ++ from ++ "</from>" ++ nl;
    "<to>" ++ to ++ "</to>" ++ nl;
    "</transition>" ++ nl ].

Definition terminator : string := "</background>" ++ nl.

(** The elements one iteration adds for a pair of images. *)
Definition image_segments (seconds : PyFloat.pyfloat) (t : Z) (target : Path)
  (pair : Path * Path) : list string :=
  (static_segment (PyFloat.float_repr seconds) (destination target (fst pair))
   ++ transition_segment (str_int t) (destination target (fst pair))
                         (destination target (snd pair)))%list.

Definition no_path : Path := mkPath NoRoot [].

(** Each image with the one at the next index, the last with the first. *)
Definition cyclic_pairs (images : list Path) : list (Path * Path) :=
  map (fun i => (nth i images no_path,
                 nth ((i + 1) mod List.length images) images no_path))
      (seq 0 (List.length images)).

(** Decimal digits. *)
Definition is_digit (c : ascii) : bool :=
  match c with
  | "0" | "1" | "2" | "3" | "4" | "5" | "6" | "7" | "8" | "9" => true
  | _ => false
  end%char.

Definition all_digits (s : string) : bool :=
  forallb is_digit (list_ascii_of_string s).

(** The claim on the duration texts, as the specification states it. *)
Definition duration_texts_as_claimed (images : list Path) (d t : Z)
  (target : Path) : Prop :=
  exists content,
    xml_content images d t target = Ok content /\
    durations static_marker content =
      repeat (str_int (d * 60) ++ ".0") (List.length images) /\
    durations transition_marker content =
      repeat (str_int t) (List.length images).

(** A pattern without wildcard. *)
Definition literal (pat : string) : bool :=
  forallb (fun c => negb (Ascii.eqb c "*") && negb (Ascii.eqb c "?"))
          (list_ascii_of_string pat).

(** The errors of opening a file. *)
Definition open_error (p : Path) (e : exn) : bool :=
  match e with
  | FileNotFoundError q | NotADirectoryError q | IsADirectoryError q =>
      Path_eqb p q
  | _ => false
  end.

(** The errors of argument validation. *)
Definition validation_error (e : exn) : bool :=
  match e with
  | ImageDirectoryPathError _ | ImageDurationError _
  | TransitionDurationError _ => true
  | _ => false
  end.

(** [s] starts with [pre]. *)
Definition begins_with (pre s : string) : Prop := exists rest, s = pre ++ rest.

(** The text [writelines] writes. *)
Definition descriptor_text (content : list string) : string :=
  String.concat "" content.

(** The path of the descriptor file. *)
Definition xml_file_path (target_directory_path : Path) : Path :=
  joinpath target_directory_path (name target_directory_path ++ ".xml").

(** [s] ends with [suf]. *)
Fixpoint has_suffix (suf s : string) : bool :=
  String.eqb s suf ||
  match s with
  | EmptyString => false
  | String _ s' => has_suffix suf s'
  end.

(** A name a directory entry can have: not empty, not ".", no slash. *)
Definition entry_name (s : string) : bool :=
  is_component s && forallb (fun c => negb (Ascii.eqb c slash))
                            (list_ascii_of_string s).

(** The start-time block as the file-format section of the
    specification lays it out, the year and the month on one line. *)
Definition documented_start_block : string :=
  "<background>" ++ nl ++
  "-" ++ nl ++
  "<starttime>" ++ nl ++
  "<year>2009</year><month>08</month>" ++ nl ++
  "<day>04</day>" ++ nl ++
  "<hour>00</hour>" ++ nl ++
  "<minute>00</minute>" ++ nl ++
  "<second>00</second>" ++ nl ++
  "</starttime>" ++ nl.

(** The start-time block the program writes: one element per line. *)
Definition start_block : string :=
  "<background>" ++ nl ++
  "-" ++ nl ++
  "<starttime>" ++ nl ++
  "<year>2009</year>" ++ nl ++
  "<month>08</month>" ++ nl ++
  "<day>04</day>" ++ nl ++
  "<hour>00</hour>" ++ nl ++
  "<minute>00</minute>" ++ nl ++
  "<second>00</second>" ++ nl ++
  "</starttime>" ++ nl.

(** [p] and the directories above it exist and are directories. *)
Definition dir_chain (fs : FS) (p : Path) : Prop :=
  forall k, (k <= List.length (parts p))%nat ->
            is_dir fs (mkPath (root p) (firstn k (parts p))) = true.

(** What the copy loop needs of the entries [names] of [src]: [src] and
    [target] are distinct directories that can be reached, every entry is
    a regular file, and no directory of [target] has the name of one. *)
Definition copy_ready (src target : Path) (fs : FS) (names : list string)
  : Prop :=
  dir_chain fs src /\ dir_chain fs target /\ src <> target /\
  forall n, In n names ->
            entry_name n = true /\
            (exists c, lookup fs (child src n) = Some (File c)) /\
            is_dir fs (child target n) = false.

(** The list moved one place to the left, its head last. *)
Definition rotate_left {A} (l : list A) : list A := (tl l ++ firstn 1 l)%list.

(** A string without slash. *)
Definition no_slash (s : string) : bool :=
  forallb (fun c => negb (Ascii.eqb c slash)) (list_ascii_of_string s).

(** Nothing is lost from [fs] to [fs']: what exists still exists and
    what is a directory still is one. *)
Definition kept (fs fs' : FS) : Prop :=
  forall p, (exists_ fs p = true -> exists_ fs' p = true) /\
            (is_dir fs p = true -> is_dir fs' p = true).

(** The same for statements, on the file system of the world. *)
Definition keeps {A} (m : M A) : Prop :=
  forall w, kept (fs w) (fs (snd (m w))).

(** The directory [main] stages the slideshow in. *)
Definition target_directory (arguments : Namespace) : Path :=
  joinpath USR_BACKGROUNDS_PATH
           (or_else (directory_name arguments)
                    (name (images_directory_path arguments))).

(** The lines [main] prints, in order. *)
Definition progress_lines (arguments : Namespace) : list string :=
  [ "[INFO] Creating " ++ path_str (target_directory arguments) ++ nl;
    "[INFO] Creating xml file in "
      ++ path_str (images_directory_path arguments) ++ nl;
    "[INFO] Copying images to " ++ path_str (target_directory arguments) ++ nl;
    "[INFO] Done." ++ nl ].

(** [q] is [p] or a directory above it. *)
Definition above (q p : Path) : Prop :=
  root q = root p /\ exists k, parts q = firstn k (parts p).

(** From [fs] to [fs'] only directories on the way to [target] were
    added. *)
Definition grown (target : Path) (fs fs' : FS) : Prop :=
  (forall q, lookup fs' q = lookup fs q \/
             (lookup fs q = None /\ lookup fs' q = Some Dir /\ above q target)) /\
  (forall d, ~ above d target -> scandir fs' d = scandir fs d).

(** Bytes below 128 only. *)
Definition ascii_only (s : string) : bool :=
  forallb (fun c => (N_of_ascii c <? 128)%N) (list_ascii_of_string s).

(** An absolute path without ".." part: as no symbolic link is followed,
    two such paths name the same file exactly when they are equal. *)
Definition plain (p : Path) : Prop :=
  root p = Slash /\ ~ In ".." (parts p).

(** What [main] needs to stage the directory of [ns] on [fs]: valid
    arguments, a duration a float can hold, a source directory that can
    be reached and is not on the way to the target directory, no file in
    the way of the target directory, source entries that are regular
    files and meet neither a directory of their name nor the name of the
    descriptor in the target directory, both directories given by
    absolute paths without ".." part, and paths and entry names that are
    valid UTF-8. *)
Definition stageable (ns : Namespace) (fs : FS) : Prop :=
  dir_chain fs (images_directory_path ns) /\
  0 < image_duration ns < PyFloat.float_limit /\
  0 <= transition_duration ns /\
  ~ above (images_directory_path ns) (target_directory ns) /\
  (forall q c, above q (target_directory ns) -> lookup fs q <> Some (File c)) /\
  is_dir fs (xml_file_path (target_directory ns)) = false /\
  (forall n, In n (scandir fs (images_directory_path ns)) ->
             entry_name n = true /\
             (exists c, lookup fs (child (images_directory_path ns) n)
                        = Some (File c)) /\
             is_dir fs (child (target_directory ns) n) = false /\
             n <> name (target_directory ns) ++ ".xml" /\
             encodable n = true) /\
  plain (images_directory_path ns) /\
  plain (target_directory ns) /\
  encodable (path_str (images_directory_path ns)) = true /\
  encodable (path_str (target_directory ns)) = true.

(** ** A scenario: three images staged under /dest/mydir *)

Module Scenario.

Definition source : Path := parse_path "/home/user/pictures".
Definition dest : Path := parse_path "/dest/mydir".

(** The source directory holds a.jpg, b.png and c.jpeg, scanned in that
    order; the destination directory exists and is empty. *)
Definition disk : FS :=
  [ (parse_path "/home", Dir);
    (parse_path "/home/user", Dir);
    (source, Dir);
    (child source "a.jpg", File "image a");
    (child source "b.png", File "image b");
    (child source "c.jpeg", File "image c");
    (parse_path "/dest", Dir);
    (dest, Dir) ].

Definition world : World := mkWorld disk [].


(** A file name in Latin-1: the letters caf, the byte 233 (an e with an
    acute accent) and .jpg; not valid UTF-8. *)
Definition latin1_name : string :=
  "caf" ++ String (ascii_of_nat 233) ".jpg".

(** A source directory that holds a.jpg and the file of that name. *)
Definition disk_latin1 : FS :=
  [ (parse_path "/home", Dir);
    (parse_path "/home/user", Dir);
    (source, Dir);
    (child source "a.jpg", File "image a");
    (child source latin1_name, File "image b");
    (parse_path "/dest", Dir);
    (dest, Dir) ].

(** The transitions the specification expects for this scenario. *)
Definition claimed_transitions : list (string * string) :=
  [ ("/dest/mydir/a.jpg", "/dest/mydir/b.png");
    ("/dest/mydir/b.png", "/dest/mydir/c.jpeg");
    ("/dest/mydir/c.jpeg", "/dest/mydir/a.jpg") ].

End Scenario.

(** * Properties *)

(** ** Rounding and the printed duration *)

Section Rounding.
Import PyFloat.

Lemma round53_small c : 0 <= c < 2 ^ 53 -> round53 c = c.
Proof.
intros [H0 H1]. unfold round53.
assert (Hs : Z.log2 c - 52 <= 0).
{ destruct (Z.eq_dec c 0) as [->|Hc]; [cbn; lia|].
  assert (Z.log2 c < 53) by (apply Z.log2_lt_pow2; lia). lia. }
apply Z.leb_le in Hs. cbv zeta. rewrite Hs. reflexivity.
Qed.

(** [round53] above 53 bits, with the shifts as arithmetic. *)
Lemma round53_large c :
0 < Z.log2 c - 52 ->
let s := Z.log2 c - 52 in
let q := c / 2 ^ s in
round53 c = q * 2 ^ s \/ round53 c = (q + 1) * 2 ^ s.
Proof.
intros Hs s q. unfold round53. fold s.
destruct (s <=? 0) eqn:E; [apply Z.leb_le in E; lia|].
rewrite !Z.shiftl_mul_pow2, Z.shiftr_div_pow2 by lia. fold q.
repeat match goal with |- context [if ?b then _ else _] => destruct b end; auto.
Qed.

Lemma round53_even c k : c = 2 * k -> 0 <= c < 2 ^ 54 -> round53 c = c.
Proof.
intros Hk [H0 H1].
destruct (Z_lt_le_dec c (2 ^ 53)) as [Hlt|Hge]; [apply round53_small; lia|].
assert (Hl : Z.log2 c = 53) by (apply Z.log2_unique; [lia|split; [exact Hge|exact H1]]).
unfold round53. rewrite Hl. change (53 - 52) with 1. change (1 <=? 0) with false.
cbv iota zeta.
rewrite !Z.shiftl_mul_pow2, Z.shiftr_div_pow2 by lia.
change (2 ^ 1) with 2. change (2 ^ (1 - 1)) with 1.
replace (c / 2) with k by (subst c; rewrite Z.mul_comm, Z.div_mul; lia).
replace (c - k * 2) with 0 by lia. change (0 <? 1 * 1) with true. cbv iota. lia.
Qed.

Lemma round53_ge c b : 53 <= b -> 2 ^ b <= c -> 2 ^ b <= round53 c.
Proof.
intros Hb Hc.
assert (Hpos : 0 < 2 ^ b) by (apply Z.pow_pos_nonneg; lia).
assert (Hl : b <= Z.log2 c) by (apply Z.log2_le_pow2; lia).
pose proof (Z.log2_spec c ltac:(lia)) as [Hlo Hhi].
destruct (round53_large c ltac:(lia)) as [E|E]; rewrite E; clear E.
all: set (s := Z.log2 c - 52) in *.
all: assert (Hs2 : 0 < 2 ^ s) by (apply Z.pow_pos_nonneg; lia).
all: assert (Hq : 2 ^ 52 <= c / 2 ^ s)
  by (apply Z.div_le_lower_bound; [lia|];
      rewrite <- Z.pow_add_r by lia; replace (s + 52) with (Z.log2 c) by lia; lia).
all: assert (Hbs : 2 ^ b <= 2 ^ 52 * 2 ^ s)
  by (rewrite <- Z.pow_add_r by lia; apply Z.pow_le_mono_r; lia).
all: nia.
Qed.

Lemma round53_lt c b : 53 <= b -> 0 <= c < 2 ^ b -> round53 c <= 2 ^ b.
Proof.
intros Hb [H0 Hc].
destruct (Z_lt_le_dec c (2 ^ 53)) as [Hlt|Hge].
{ rewrite round53_small by lia. lia. }
assert (Hl53 : 53 <= Z.log2 c) by (apply Z.log2_le_pow2; lia).
assert (Hlb : Z.log2 c < b) by (apply Z.log2_lt_pow2; lia).
pose proof (Z.log2_spec c ltac:(lia)) as [Hlo Hhi].
set (s := Z.log2 c - 52) in *.
assert (Hs2 : 0 < 2 ^ s) by (apply Z.pow_pos_nonneg; lia).
assert (Hq : c / 2 ^ s < 2 ^ 53).
{ apply Z.div_lt_upper_bound; [lia|].
  rewrite <- Z.pow_add_r by lia. replace (s + 53) with (Z.succ (Z.log2 c)) by lia. lia. }
assert (Hbs : 2 ^ 53 * 2 ^ s <= 2 ^ b)
  by (rewrite <- Z.pow_add_r by lia; apply Z.pow_le_mono_r; lia).
assert (Hq0 : 0 <= c / 2 ^ s) by (apply Z.div_pos; lia).
destruct (round53_large c ltac:(lia)) as [E|E]; rewrite E; fold s; nia.
Qed.

Lemma round53_even_inv c k x :
c = 2 * k -> 0 <= c -> x < 2 ^ 54 -> round53 c = x -> c = x.
Proof.
intros Hk H0 Hx Hr.
destruct (Z_lt_le_dec c (2 ^ 54)) as [Hlt|Hge].
- rewrite (round53_even c k Hk) in Hr by lia. exact Hr.
- pose proof (round53_ge c 54 ltac:(lia) Hge). lia.
Qed.

Lemma shortest_exact x :
0 < x < 10 ^ 16 -> round53 x = x -> forall j, shortest j x = x.
Proof.
intros Hx Hrx j.
assert (H54 : 10 ^ 16 < 2 ^ 54) by reflexivity.
induction j as [|j IH].
- cbn [shortest]. change (10 ^ Z.of_nat 0) with 1.
  rewrite Z.div_1_r, Z.mul_1_r, Hrx, Z.eqb_refl. cbn [andb].
  destruct (round53 (x + 1) =? x).
  + replace (x - x <? x + 1 - x) with true by (symmetry; apply Z.ltb_lt; lia).
    reflexivity.
  + reflexivity.
- cbn [shortest]. rewrite IH.
  set (u := 10 ^ Z.of_nat (S j)).
  assert (Hu : u = 2 * (5 * 10 ^ Z.of_nat j)).
  { unfold u. rewrite Nat2Z.inj_succ, Z.pow_succ_r by lia. lia. }
  assert (Hu0 : 0 < u) by (unfold u; apply Z.pow_pos_nonneg; lia).
  pose proof (Z.mul_div_le x u Hu0) as Hlo.
  pose proof (Z.mod_pos_bound x u Hu0) as Hmod.
  pose proof (Z.div_mod x u ltac:(lia)) as Hdm.
  assert (Hq0 : 0 <= x / u) by (apply Z.div_pos; lia).
  assert (Hhi : (round53 (x / u * u + u) =? x) = false).
  { apply Z.eqb_neq. intros E.
    apply (round53_even_inv _ ((x / u + 1) * (5 * 10 ^ Z.of_nat j))) in E; nia. }
  rewrite Hhi, andb_false_r.
  destruct (round53 (x / u * u) =? x) eqn:Elo; [|reflexivity].
  apply Z.eqb_eq in Elo.
  apply (round53_even_inv _ (x / u * (5 * 10 ^ Z.of_nat j))) in Elo; nia.
Qed.

Lemma float_of_int_ok n :
Z.abs n < 2 ^ 1023 ->
float_of_int n = Ok (Finite (n <? 0) (round53 (Z.abs n))).
Proof.
intros Hn. unfold float_of_int.
pose proof (round53_lt (Z.abs n) 1023 ltac:(lia) ltac:(lia)) as Hr.
replace (overflow_threshold <=? round53 (Z.abs n)) with false; [reflexivity|].
symmetry. apply Z.leb_gt. unfold overflow_threshold.
assert (2 ^ 1023 < 2 ^ 1024) by (apply Z.pow_lt_mono_r; lia). lia.
Qed.

(** Within 16 digits the product is exact and printed in fixed
  notation. *)
Lemma seconds_repr d :
0 < d -> d * 60 < 10 ^ 16 ->
exists seconds,
  int_mul_float d sixty = Ok seconds /\
  float_repr seconds = str_int (d * 60) ++ ".0".
Proof.
intros Hd Hb.
assert (H53 : 10 ^ 16 < 60 * 2 ^ 53) by reflexivity.
assert (H54 : 10 ^ 16 < 2 ^ 54) by reflexivity.
assert (H1023 : 2 ^ 53 < 2 ^ 1023) by reflexivity.
assert (H1024 : 2 ^ 54 < overflow_threshold) by reflexivity.
unfold int_mul_float. rewrite float_of_int_ok by lia.
rewrite Z.abs_eq, round53_small by lia.
replace (d <? 0) with false by (symmetry; apply Z.ltb_ge; lia).
eexists; split; [reflexivity|].
unfold float_mul, sixty.
assert (Hr : round53 (d * 60) = d * 60)
  by (apply (round53_even _ (d * 30)); lia).
rewrite Hr.
replace (overflow_threshold <=? d * 60) with false
  by (symmetry; apply Z.leb_gt; lia).
cbn [xorb float_repr]. unfold repr_magnitude, shortest_decimal.
replace (d * 60 =? 0) with false by (symmetry; apply Z.eqb_neq; lia).
rewrite shortest_exact by (auto; lia).
replace (10 ^ 16 <=? d * 60) with false by (symmetry; apply Z.leb_gt; lia).
reflexivity.
Qed.

(** [round53] above 53 bits rounds up only from the half on. *)
Lemma round53_up c :
  0 < Z.log2 c - 52 ->
  let s := Z.log2 c - 52 in
  let q := c / 2 ^ s in
  round53 c = q * 2 ^ s \/
  (round53 c = (q + 1) * 2 ^ s /\ 2 ^ (s - 1) <= c - q * 2 ^ s).
Proof.
  intros Hs s q. unfold round53. fold s.
  destruct (s <=? 0) eqn:E; [apply Z.leb_le in E; lia|].
  rewrite !Z.shiftl_mul_pow2, Z.shiftr_div_pow2 by lia. fold q.
  rewrite Z.mul_1_l.
  destruct (c - q * 2 ^ s <? 2 ^ (s - 1)) eqn:E1; [now left|].
  apply Z.ltb_ge in E1.
  destruct (2 ^ (s - 1) <? c - q * 2 ^ s); [right; auto|].
  destruct (Z.even q); [now left|right; auto].
Qed.

Lemma round53_below_limit c :
  0 <= c < float_limit -> round53 c < overflow_threshold.
Proof.
  unfold float_limit, overflow_threshold. intros [H0 Hc].
  assert (P1023 : 2 ^ 1023 < 2 ^ 1024) by reflexivity.
  destruct (Z_lt_le_dec c (2 ^ 1023)) as [Hlt|Hge].
  { pose proof (round53_lt c 1023 ltac:(lia) ltac:(lia)). lia. }
  assert (Hl : Z.log2 c = 1023).
  { apply Z.log2_unique; [lia|]. change (Z.succ 1023) with 1024.
    assert (0 < 2 ^ 970) by reflexivity. lia. }
  pose proof (round53_up c) as H. rewrite Hl in H.
  change (1023 - 52) with 971 in H. change (971 - 1) with 970 in H.
  specialize (H ltac:(lia)). cbv zeta in H.
  assert (E971 : 2 ^ 1024 = 2 ^ 53 * 2 ^ 971) by reflexivity.
  assert (E970 : 2 ^ 971 = 2 * 2 ^ 970) by reflexivity.
  assert (P970 : 0 < 2 ^ 970) by reflexivity.
  assert (P53 : 2 ^ 53 = 9007199254740992) by reflexivity.
  pose proof (Z.div_mod c (2 ^ 971) ltac:(lia)) as Hdm.
  pose proof (Z.mod_pos_bound c (2 ^ 971) ltac:(lia)) as Hmod.
  set (q := c / 2 ^ 971) in *. set (x := 2 ^ 970) in *. set (y := 2 ^ 971) in *.
  destruct H as [E|[E Hr]]; rewrite E; nia.
Qed.

Lemma round53_from_limit c :
  float_limit <= c -> overflow_threshold <= round53 c.
Proof.
  unfold float_limit, overflow_threshold. intros Hc.
  destruct (Z_lt_le_dec c (2 ^ 1024)) as [Hlt|Hge];
    [|apply round53_ge; [lia|exact Hge]].
  assert (P970 : 0 < 2 ^ 970) by reflexivity.
  assert (E1023 : 2 ^ 1024 = 2 * 2 ^ 1023) by reflexivity.
  assert (E53 : 2 ^ 1023 = 2 ^ 53 * 2 ^ 970) by reflexivity.
  assert (Hl : Z.log2 c = 1023).
  { apply Z.log2_unique; [lia|]. change (Z.succ 1023) with 1024. lia. }
  assert (E971 : 2 ^ 971 = 2 * 2 ^ 970) by reflexivity.
  assert (P53 : 2 ^ 53 = 9007199254740992) by reflexivity.
  assert (Hq : c / 2 ^ 971 = 2 ^ 53 - 1).
  { symmetry. apply (Z.div_unique c (2 ^ 971) (2 ^ 53 - 1) (c - (2 ^ 53 - 1) * 2 ^ 971)); lia. }
  unfold round53. rewrite Hl. change (1023 - 52) with 971.
  change (971 <=? 0) with false. cbv iota zeta.
  rewrite !Z.shiftl_mul_pow2, Z.shiftr_div_pow2 by lia.
  change (971 - 1) with 970. rewrite Hq, Z.mul_1_l.
  replace (c - (2 ^ 53 - 1) * 2 ^ 971 <? 2 ^ 970) with false
    by (symmetry; apply Z.ltb_ge; lia).
  replace (2 ^ 53 - 1 + 1) with (2 ^ 53) by lia.
  change (Z.even (2 ^ 53 - 1)) with false.
  destruct (2 ^ 970 <? c - (2 ^ 53 - 1) * 2 ^ 971); lia.
Qed.

(** The ints Python converts to a float are those of magnitude below
    [float_limit]. *)
Lemma float_of_int_limit n :
  (Z.abs n < float_limit ->
   float_of_int n = Ok (Finite (n <? 0) (round53 (Z.abs n)))) /\
  (float_limit <= Z.abs n -> float_of_int n = Raise OverflowError).
Proof.
  unfold float_of_int. split; intros H.
  - pose proof (round53_below_limit (Z.abs n) ltac:(lia)) as Hr.
    apply Z.leb_gt in Hr. rewrite Hr. reflexivity.
  - pose proof (round53_from_limit (Z.abs n) H) as Hr.
    apply Z.leb_le in Hr. rewrite Hr. reflexivity.
Qed.

End Rounding.

(** ** The generator and the loop *)

Section Pairing.
Context {A : Type} (d : A).

Lemma getitem_nth (elements : list A) (i : nat) :
  (i < List.length elements)%nat ->
  getitem elements (Z.of_nat i) = Ok (nth i elements d).
Proof.
  intros Hi. unfold getitem.
  replace (Z.of_nat i <? 0) with false by (symmetry; apply Z.ltb_ge; lia).
  replace ((0 <=? Z.of_nat i) && (Z.of_nat i <? Z.of_nat (List.length elements)))
    with true
    by (symmetry; apply andb_true_iff; split;
        [apply Z.leb_le|apply Z.ltb_lt]; lia).
  rewrite Nat2Z.id, (nth_error_nth' elements d Hi). reflexivity.
Qed.

Lemma pair_elements_cyclic (elements : list A) :
  pair_elements elements =
  map (fun i => Ok (nth i elements d,
                    nth ((i + 1) mod List.length elements) elements d))
      (seq 0 (List.length elements)).
Proof.
  unfold pair_elements, range.
  rewrite Z.sub_0_r, Nat2Z.id, map_map.
  apply map_ext_in. intros i Hi. apply in_seq in Hi.
  change (0 + Z.of_nat i) with (Z.of_nat i).
  rewrite (getitem_nth elements) by lia.
  destruct (Z.of_nat i <? Z.of_nat (List.length elements) - 1) eqn:E.
  - apply Z.ltb_lt in E.
    replace (Z.of_nat i + 1) with (Z.of_nat (i + 1)) by lia.
    rewrite (getitem_nth elements) by lia.
    rewrite Nat.mod_small by lia. reflexivity.
  - apply Z.ltb_ge in E.
    change 0 with (Z.of_nat 0).
    rewrite (getitem_nth elements) by lia.
    replace (i + 1)%nat with (List.length elements) by lia.
    rewrite Nat.Div0.mod_same. reflexivity.
Qed.

Lemma pair_elements_length (elements : list A) :
  List.length (pair_elements elements) = List.length elements.
Proof.
  unfold pair_elements, range.
  rewrite length_map, length_map, length_seq. lia.
Qed.
End Pairing.

Lemma image_xml_segments d t target a b seconds :
  PyFloat.int_mul_float d PyFloat.sixty = Ok seconds ->
  image_xml d t target a b = Ok (image_segments seconds t target (a, b)).
Proof. intros H. unfold image_xml. rewrite H. reflexivity. Qed.

Lemma extend_loop_ok d t target seconds :
  PyFloat.int_mul_float d PyFloat.sixty = Ok seconds ->
  forall pairs acc,
    extend_loop d t target (map Ok pairs) acc =
    Ok (acc ++ flat_map (image_segments seconds t target) pairs)%list.
Proof.
  intros H pairs. induction pairs as [|[a b] pairs IH]; intros acc.
  - cbn. rewrite app_nil_r. reflexivity.
  - cbn [map extend_loop]. rewrite (image_xml_segments d t target a b seconds H).
    rewrite IH. cbn [flat_map]. rewrite app_assoc. reflexivity.
Qed.

Lemma xml_content_closed images d t target seconds :
  PyFloat.int_mul_float d PyFloat.sixty = Ok seconds ->
  xml_content images d t target =
  Ok (initial_xml
      ++ flat_map (image_segments seconds t target) (cyclic_pairs images)
      ++ [terminator])%list.
Proof.
  intros H. unfold xml_content.
  rewrite (pair_elements_cyclic no_path).
  replace (map (fun i => Ok (nth i images no_path,
                 nth ((i + 1) mod List.length images) images no_path))
               (seq 0 (List.length images)))
    with (map (@Ok (Path * Path)) (cyclic_pairs images))
    by (unfold cyclic_pairs; rewrite map_map; reflexivity).
  rewrite (extend_loop_ok d t target seconds H).
  rewrite <- app_assoc. reflexivity.
Qed.

Lemma xml_content_empty d t target :
  xml_content [] d t target = Ok (initial_xml ++ [terminator])%list.
Proof. reflexivity. Qed.

(** ** Reading segments *)

Lemma length_string_app (a b : string) :
  String.length (a ++ b) = (String.length a + String.length b)%nat.
Proof. induction a as [|c a IH]; cbn; [reflexivity|now rewrite IH]. Qed.

Lemma strip_suffix_eq suf s :
  strip_suffix suf s =
  if String.eqb s suf then Some EmptyString
  else match s with
       | EmptyString => None
       | String c s' =>
           match strip_suffix suf s' with
           | Some r => Some (String c r)
           | None => None
           end
       end.
Proof. destruct s; reflexivity. Qed.

Lemma strip_suffix_app suf p : strip_suffix suf (p ++ suf) = Some p.
Proof.
  induction p as [|c p IH].
  - cbn [append]. rewrite strip_suffix_eq, String.eqb_refl. reflexivity.
  - cbn [append]. rewrite strip_suffix_eq.
    replace (String.eqb (String c (p ++ suf)) suf) with false.
    + rewrite IH. reflexivity.
    + symmetry. apply String.eqb_neq. intros E.
      apply (f_equal String.length) in E. cbn in E.
      rewrite length_string_app in E. lia.
Qed.

Lemma untag_duration x : untag "duration" ("<duration>" ++ x ++ "</duration>" ++ nl) = Some x.
Proof. unfold untag. cbn [append strip_prefix Ascii.eqb Bool.eqb]. apply strip_suffix_app. Qed.

Lemma untag_file x : untag "file" ("<file>" ++ x ++ "</file>" ++ nl) = Some x.
Proof. unfold untag. cbn [append strip_prefix Ascii.eqb Bool.eqb]. apply strip_suffix_app. Qed.

Lemma untag_from x : untag "from" ("<from>" ++ x ++ "</from>" ++ nl) = Some x.
Proof. unfold untag. cbn [append strip_prefix Ascii.eqb Bool.eqb]. apply strip_suffix_app. Qed.

Lemma untag_to x : untag "to" ("<to>" ++ x ++ "</to>" ++ nl) = Some x.
Proof. unfold untag. cbn [append strip_prefix Ascii.eqb Bool.eqb]. apply strip_suffix_app. Qed.


Lemma untag_none tag e :
  strip_prefix ("<" ++ tag ++ ">") e = None -> untag tag e = None.
Proof. intros H. unfold untag. rewrite H. reflexivity. Qed.

Lemma transitions_cons e rest :
  transitions (e :: rest) =
  match untag "from" e, rest with
  | Some f, e' :: _ =>
      match untag "to" e' with
      | Some t => (f, t) :: transitions rest
      | None => transitions rest
      end
  | _, _ => transitions rest
  end.
Proof. reflexivity. Qed.

Lemma transitions_skip e rest :
  untag "from" e = None -> transitions (e :: rest) = transitions rest.
Proof. intros H. rewrite transitions_cons, H. reflexivity. Qed.

Lemma transitions_hit f t rest :
  transitions (("<from>" ++ f ++ "</from>" ++ nl)
                 :: ("<to>" ++ t ++ "</to>" ++ nl) :: rest) =
  (f, t) :: transitions rest.
Proof.
  rewrite transitions_cons, untag_from, untag_to.
  rewrite transitions_skip by (apply untag_none; reflexivity).
  reflexivity.
Qed.

Section Segments.
Variables (seconds : PyFloat.pyfloat) (t : Z) (target : Path).

Lemma transitions_segments pair rest :
  transitions (image_segments seconds t target pair ++ rest)%list =
  (destination target (fst pair), destination target (snd pair))
    :: transitions rest.
Proof.
  unfold image_segments, static_segment, transition_segment.
  cbn [app].
  do 8 (rewrite transitions_skip by (apply untag_none; reflexivity)).
  rewrite transitions_hit.
  rewrite transitions_skip by (apply untag_none; reflexivity).
  reflexivity.
Qed.
End Segments.

Lemma static_files_cons e rest :
  static_files (e :: rest) =
  match untag "file" e with
  | Some f => f :: static_files rest
  | None => static_files rest
  end.
Proof. reflexivity. Qed.

Lemma static_files_skip e rest :
  untag "file" e = None -> static_files (e :: rest) = static_files rest.
Proof. intros H. rewrite static_files_cons, H. reflexivity. Qed.

Lemma durations_cons marker m rest :
  durations marker (m :: rest) =
  if String.eqb m marker then
    match rest with
    | e :: _ =>
        match untag "duration" e with
        | Some d => d :: durations marker rest
        | None => durations marker rest
        end
    | [] => []
    end
  else durations marker rest.
Proof. reflexivity. Qed.

Lemma durations_skip marker m rest :
  String.eqb m marker = false ->
  durations marker (m :: rest) = durations marker rest.
Proof. intros H. rewrite durations_cons, H. reflexivity. Qed.

Lemma durations_hit marker d rest :
  durations marker (marker :: ("<duration>" ++ d ++ "</duration>" ++ nl) :: rest)
  = d :: durations marker
           (("<duration>" ++ d ++ "</duration>" ++ nl) :: rest).
Proof. rewrite durations_cons, String.eqb_refl, untag_duration. reflexivity. Qed.

Lemma count_segments_cons marker e rest :
  count_segments marker (e :: rest) =
  ((if String.eqb marker e then 1 else 0) + count_segments marker rest)%nat.
Proof.
  unfold count_segments. cbn [filter].
  destruct (String.eqb marker e); reflexivity.
Qed.

Lemma count_segments_app marker a b :
  count_segments marker (a ++ b)%list =
  (count_segments marker a + count_segments marker b)%nat.
Proof. unfold count_segments. rewrite filter_app, length_app. reflexivity. Qed.

Section Segments2.
Variables (seconds : PyFloat.pyfloat) (t : Z) (target : Path).

Local Abbreviation seg := (image_segments seconds t target).

Lemma static_files_segments pair rest :
  static_files (seg pair ++ rest)%list =
  destination target (fst pair) :: static_files rest.
Proof.
  unfold image_segments, static_segment, transition_segment.
  cbn [app].
  do 3 (rewrite static_files_skip by (apply untag_none; reflexivity)).
  rewrite static_files_cons, untag_file.
  do 7 (rewrite static_files_skip by (apply untag_none; reflexivity)).
  reflexivity.
Qed.

Lemma static_durations_segments pair rest :
  durations static_marker (seg pair ++ rest)%list =
  PyFloat.float_repr seconds :: durations static_marker rest.
Proof.
  unfold image_segments, static_segment, transition_segment.
  cbn [app].
  rewrite durations_skip by reflexivity.
  change ("<static>" ++ nl) with static_marker.
  rewrite durations_hit.
  do 9 (rewrite durations_skip by reflexivity).
  reflexivity.
Qed.

Lemma transition_durations_segments pair rest :
  durations transition_marker (seg pair ++ rest)%list =
  str_int t :: durations transition_marker rest.
Proof.
  unfold image_segments, static_segment, transition_segment.
  cbn [app].
  do 6 (rewrite durations_skip by reflexivity).
  change ("<transition>" ++ nl) with transition_marker.
  rewrite durations_hit.
  do 4 (rewrite durations_skip by reflexivity).
  reflexivity.
Qed.

Lemma count_static_segments pair :
  count_segments static_marker (seg pair) = 1%nat.
Proof.
  unfold image_segments, static_segment, transition_segment.
  cbn [app]. rewrite !count_segments_cons. reflexivity.
Qed.

Lemma count_transition_segments pair :
  count_segments transition_marker (seg pair) = 1%nat.
Proof.
  unfold image_segments, static_segment, transition_segment.
  cbn [app]. rewrite !count_segments_cons. reflexivity.
Qed.

(** Reading the segments of all pairs. *)
Lemma transitions_flat_map pairs rest :
  transitions (flat_map seg pairs ++ rest)%list =
  (map (fun pair => (destination target (fst pair),
                     destination target (snd pair))) pairs
   ++ transitions rest)%list.
Proof.
  induction pairs as [|pair pairs IH]; [reflexivity|].
  cbn [flat_map map]. rewrite <- app_assoc.
  rewrite transitions_segments, IH. reflexivity.
Qed.

Lemma static_files_flat_map pairs rest :
  static_files (flat_map seg pairs ++ rest)%list =
  (map (fun pair => destination target (fst pair)) pairs
   ++ static_files rest)%list.
Proof.
  induction pairs as [|pair pairs IH]; [reflexivity|].
  cbn [flat_map map]. rewrite <- app_assoc.
  rewrite static_files_segments, IH. reflexivity.
Qed.

Lemma static_durations_flat_map pairs rest :
  durations static_marker (flat_map seg pairs ++ rest)%list =
  (repeat (PyFloat.float_repr seconds) (List.length pairs)
   ++ durations static_marker rest)%list.
Proof.
  induction pairs as [|pair pairs IH]; [reflexivity|].
  cbn [flat_map List.length repeat]. rewrite <- app_assoc.
  rewrite static_durations_segments, IH. reflexivity.
Qed.

Lemma transition_durations_flat_map pairs rest :
  durations transition_marker (flat_map seg pairs ++ rest)%list =
  (repeat (str_int t) (List.length pairs)
   ++ durations transition_marker rest)%list.
Proof.
  induction pairs as [|pair pairs IH]; [reflexivity|].
  cbn [flat_map List.length repeat]. rewrite <- app_assoc.
  rewrite transition_durations_segments, IH. reflexivity.
Qed.

Lemma count_flat_map marker pairs :
  (forall pair, count_segments marker (seg pair) = 1%nat) ->
  count_segments marker (flat_map seg pairs) = List.length pairs.
Proof.
  intros H. induction pairs as [|pair pairs IH]; [reflexivity|].
  cbn [flat_map List.length]. rewrite count_segments_app, H, IH. reflexivity.
Qed.
End Segments2.

(** ** The descriptor of a list of images *)

Lemma map_nth_seq {A} (d : A) (l : list A) :
  map (fun i => nth i l d) (seq 0 (List.length l)) = l.
Proof.
  induction l as [|a l IH]; [reflexivity|].
  cbn [List.length seq map nth]. rewrite <- seq_shift, map_map.
  cbn [nth]. rewrite IH. reflexivity.
Qed.

Lemma last_map_seq {B} (f : nat -> B) (n : nat) (d : B) :
  last (map f (seq 0 (S n))) d = f n.
Proof. rewrite seq_S, map_app. cbn [map]. apply last_last. Qed.

Lemma cyclic_pairs_length images :
  List.length (cyclic_pairs images) = List.length images.
Proof. unfold cyclic_pairs. rewrite length_map, length_seq. reflexivity. Qed.

Lemma int_mul_float_ok d :
  Z.abs d < 2 ^ 1023 ->
  exists seconds, PyFloat.int_mul_float d PyFloat.sixty = Ok seconds.
Proof.
  intros H. unfold PyFloat.int_mul_float.
  rewrite (float_of_int_ok d H). eexists. reflexivity.
Qed.

(** The observations of a descriptor built without overflow. *)
Lemma xml_content_read images d t target seconds :
  PyFloat.int_mul_float d PyFloat.sixty = Ok seconds ->
  exists content,
    xml_content images d t target = Ok content /\
    count_segments static_marker content = List.length images /\
    count_segments transition_marker content = List.length images /\
    transitions content =
      map (fun pair => (destination target (fst pair),
                        destination target (snd pair)))
          (cyclic_pairs images) /\
    static_files content = map (destination target) images /\
    durations static_marker content =
      repeat (PyFloat.float_repr seconds) (List.length images) /\
    durations transition_marker content =
      repeat (str_int t) (List.length images).
Proof.
  intros H. eexists. split; [apply (xml_content_closed images d t target seconds H)|].
  repeat split.
  - rewrite !count_segments_app, count_flat_map by apply count_static_segments.
    rewrite cyclic_pairs_length. cbn. lia.
  - rewrite !count_segments_app, count_flat_map by apply count_transition_segments.
    rewrite cyclic_pairs_length. cbn. lia.
  - change (initial_xml ++ ?x)%list with (initial_xml ++ x)%list.
    unfold initial_xml. cbn [app].
    do 9 (rewrite transitions_skip by (apply untag_none; reflexivity)).
    rewrite transitions_flat_map.
    rewrite transitions_skip by (apply untag_none; reflexivity).
    cbn [transitions]. apply app_nil_r.
  - unfold initial_xml. cbn [app].
    do 9 (rewrite static_files_skip by (apply untag_none; reflexivity)).
    rewrite static_files_flat_map.
    rewrite static_files_skip by (apply untag_none; reflexivity).
    cbn [static_files]. rewrite app_nil_r.
    unfold cyclic_pairs. rewrite map_map. cbn [fst].
    rewrite <- (map_map (fun i => nth i images no_path) (destination target)).
    rewrite map_nth_seq. reflexivity.
  - unfold initial_xml. cbn [app].
    do 9 (rewrite durations_skip by reflexivity).
    rewrite static_durations_flat_map.
    rewrite durations_skip by reflexivity.
    cbn [durations]. rewrite app_nil_r, cyclic_pairs_length. reflexivity.
  - unfold initial_xml. cbn [app].
    do 9 (rewrite durations_skip by reflexivity).
    rewrite transition_durations_flat_map.
    rewrite durations_skip by reflexivity.
    cbn [durations]. rewrite app_nil_r, cyclic_pairs_length. reflexivity.
Qed.

(** The image durations Python converts to a float are those of
    magnitude below [float_limit]; for the others the first iteration of
    the Builder's loop raises. *)
Lemma int_mul_float_limit d :
  (Z.abs d < PyFloat.float_limit ->
   exists seconds, PyFloat.int_mul_float d PyFloat.sixty = Ok seconds) /\
  (PyFloat.float_limit <= Z.abs d ->
   PyFloat.int_mul_float d PyFloat.sixty = Raise OverflowError).
Proof.
  unfold PyFloat.int_mul_float.
  destruct (float_of_int_limit d) as [Hlt Hge]. split; intros H.
  - rewrite (Hlt H). eexists. reflexivity.
  - rewrite (Hge H). reflexivity.
Qed.

Lemma xml_content_beyond_limit images d t target :
  images <> [] -> PyFloat.float_limit <= Z.abs d ->
  xml_content images d t target = Raise OverflowError.
Proof.
  intros Hne Hd. destruct images as [|a images]; [contradiction|].
  destruct (int_mul_float_limit d) as [_ H]. specialize (H Hd).
  unfold xml_content. rewrite (pair_elements_cyclic no_path).
  cbn [List.length seq map extend_loop]. unfold image_xml. rewrite H.
  reflexivity.
Qed.

(** C1, as amended. For a non-empty list of N images and an image
    duration Python converts to a float, that is one of magnitude below
    2^1024 - 2^970, the descriptor has exactly N static and N transition
    segments; the transition of the image at index i goes from its
    destination path to that of the image at index (i+1) mod N, so the
    last transition leads to the first image, and with one image the
    transition leads from the image to itself.  For every other image
    duration the Builder raises [OverflowError] and emits nothing. *)
Theorem cyclic_pairing (images : list Path) (d t : Z) (target : Path) :
  images <> [] ->
  let N := List.length images in
  (Z.abs d < PyFloat.float_limit ->
   exists content,
     xml_content images d t target = Ok content /\
     count_segments static_marker content = N /\
     count_segments transition_marker content = N /\
     static_files content = map (destination target) images /\
     transitions content =
       map (fun i => (destination target (nth i images no_path),
                      destination target (nth ((i + 1) mod N) images no_path)))
           (seq 0 N) /\
     snd (last (transitions content) ("", "")) =
       destination target (hd no_path images) /\
     (N = 1%nat ->
      exists p, transitions content = [(p, p)])) /\
  (PyFloat.float_limit <= Z.abs d ->
   xml_content images d t target = Raise OverflowError).
Proof.
  intros Hne N. split; [|apply (xml_content_beyond_limit _ _ _ _ Hne)].
  intros Hd.
  destruct (int_mul_float_limit d) as [Hok _].
  destruct (Hok Hd) as [seconds Hs].
  destruct (xml_content_read images d t target seconds Hs)
    as (content & Hc & Hst & Htr & Htrs & Hfiles & _ & _).
  assert (Htrs' : transitions content =
      map (fun i => (destination target (nth i images no_path),
                     destination target (nth ((i + 1) mod N) images no_path)))
          (seq 0 N)).
  { rewrite Htrs. unfold cyclic_pairs. rewrite map_map. reflexivity. }
  exists content. repeat split; auto.
  - rewrite Htrs'. destruct images as [|a images]; [contradiction|].
    subst N. cbn [List.length]. rewrite last_map_seq. cbn [snd].
    replace (List.length images + 1)%nat with (S (List.length images)) by lia.
    rewrite Nat.Div0.mod_same. reflexivity.
  - intros HN. rewrite Htrs', HN. cbn. eexists. reflexivity.
Qed.

Lemma cyclic_pairing_witness :
  [child Scenario.source "a.jpg"] <> [] /\
  Z.abs 5 < PyFloat.float_limit /\
  exists content,
    xml_content [child Scenario.source "a.jpg"] 5 3 Scenario.dest = Ok content /\
    transitions content = [("/dest/mydir/a.jpg", "/dest/mydir/a.jpg")].
Proof.
  split; [discriminate|]. split; [reflexivity|].
  destruct (cyclic_pairing [child Scenario.source "a.jpg"] 5 3 Scenario.dest)
    as [H _]; [discriminate|].
  destruct H as (content & Hc & _ & _ & _ & Ht & _); [reflexivity|].
  exists content. split; [exact Hc|]. rewrite Ht. reflexivity.
Defined.

(** C1, counterexample. An image duration of 2^1024 minutes passes the
    validation of [parse_arguments], the list holds one image, and the
    Builder emits no segment: the conversion of the duration to a float
    raises [OverflowError]. *)
Lemma cyclic_pairing_counterexample :
  [child Scenario.source "a.jpg"] <> [] /\
  fst (parse_arguments (Ok (mkNamespace Scenario.source (2 ^ 1024) 3 None))
                       Scenario.world)
    = Ok (mkNamespace Scenario.source (2 ^ 1024) 3 None) /\
  xml_content [child Scenario.source "a.jpg"] (2 ^ 1024) 3 Scenario.dest
    = Raise OverflowError /\
  ~ (exists content,
       xml_content [child Scenario.source "a.jpg"] (2 ^ 1024) 3 Scenario.dest
         = Ok content /\
       count_segments static_marker content = 1%nat /\
       count_segments transition_marker content = 1%nat).
Proof.
  split; [discriminate|].
  assert (E : xml_content [child Scenario.source "a.jpg"] (2 ^ 1024) 3
                          Scenario.dest = Raise OverflowError)
    by (vm_compute; reflexivity).
  split; [vm_compute; reflexivity|]. split; [exact E|].
  intros (content & Hc & _). rewrite E in Hc. discriminate Hc.
Qed.

(** C8. With no image the descriptor is the initial block followed by
    the terminator: no static segment, no transition segment, and a
    returned value whatever the durations are. *)
Theorem empty_image_list (d t : Z) (target : Path) :
  xml_content [] d t target = Ok (initial_xml ++ [terminator])%list /\
  descriptor_text (initial_xml ++ [terminator])%list = start_block ++ terminator /\
  count_segments static_marker (initial_xml ++ [terminator])%list = 0%nat /\
  count_segments transition_marker (initial_xml ++ [terminator])%list = 0%nat /\
  transitions (initial_xml ++ [terminator])%list = [] /\
  static_files (initial_xml ++ [terminator])%list = [].
Proof. repeat split; reflexivity. Qed.

Lemma append_nil_r (s : string) : s ++ "" = s.
Proof. induction s as [|c s IH]; cbn; [reflexivity|now rewrite IH]. Qed.

Lemma append_assoc (a b c : string) : (a ++ b) ++ c = a ++ (b ++ c).
Proof. induction a as [|x a IH]; cbn; [reflexivity|now rewrite IH]. Qed.

Lemma descriptor_text_cons e rest :
  descriptor_text (e :: rest) = e ++ descriptor_text rest.
Proof.
  unfold descriptor_text. destruct rest as [|e' rest].
  - cbn. symmetry. apply append_nil_r.
  - reflexivity.
Qed.

Lemma descriptor_text_app a b :
  descriptor_text (a ++ b)%list = descriptor_text a ++ descriptor_text b.
Proof.
  induction a as [|e a IH]; [reflexivity|].
  cbn [app]. rewrite !descriptor_text_cons, IH, append_assoc. reflexivity.
Qed.

Lemma strip_prefix_app pre rest : strip_prefix pre (pre ++ rest) = Some rest.
Proof.
  induction pre as [|c pre IH]; [reflexivity|].
  cbn. rewrite Ascii.eqb_refl. exact IH.
Qed.

(** The loop only appends. *)
Lemma extend_loop_extends d t target pairs :
  forall acc content,
    extend_loop d t target pairs acc = Ok content ->
    exists tail, content = (acc ++ tail)%list.
Proof.
  induction pairs as [|[[a b]|e] pairs IH]; intros acc content H; cbn in H.
  - inversion H. exists []. symmetry. apply app_nil_r.
  - destruct (image_xml d t target a b) as [block|e]; [|discriminate].
    destruct (IH _ _ H) as [tail ->]. exists (block ++ tail)%list.
    symmetry. apply app_assoc.
  - discriminate.
Qed.

Lemma xml_content_starts images d t target content :
  xml_content images d t target = Ok content ->
  exists tail, content = (initial_xml ++ tail)%list.
Proof.
  unfold xml_content. intros H.
  destruct (extend_loop d t target (pair_elements images) initial_xml)
    as [c|e] eqn:E; [|discriminate].
  destruct (extend_loop_extends _ _ _ _ _ _ E) as [tail ->].
  inversion H. exists (tail ++ [terminator])%list. symmetry. apply app_assoc.
Qed.

(** C4, as amended. Whatever the images and the durations, a descriptor
    starts with the nine initial elements, whose text is the fixed start
    block with the year and the month on two lines. *)
Theorem fixed_start_block (images : list Path) (d t : Z) (target : Path)
  (content : list string) :
  xml_content images d t target = Ok content ->
  firstn 9 content = initial_xml /\
  begins_with start_block (descriptor_text content).
Proof.
  intros H. destruct (xml_content_starts _ _ _ _ _ H) as [tail ->].
  split; [reflexivity|].
  exists (descriptor_text tail). rewrite descriptor_text_app. reflexivity.
Qed.

Lemma fixed_start_block_witness :
  xml_content [child Scenario.source "a.jpg"] 5 3 Scenario.dest
  = Ok (initial_xml
        ++ image_segments (PyFloat.Finite false 300) 3 Scenario.dest
             (child Scenario.source "a.jpg", child Scenario.source "a.jpg")
        ++ [terminator])%list /\
  begins_with start_block
    (descriptor_text
       (initial_xml
        ++ image_segments (PyFloat.Finite false 300) 3 Scenario.dest
             (child Scenario.source "a.jpg", child Scenario.source "a.jpg")
        ++ [terminator])%list).
Proof.
  split; [reflexivity|].
  apply (fixed_start_block [child Scenario.source "a.jpg"] 5 3 Scenario.dest).
  reflexivity.
Defined.

(** C4, counterexample. The text written for the empty list does not
    begin with the start block as the file-format section lays it out
    (year and month on one line). *)
Lemma documented_start_block_counterexample :
  xml_content [] 5 3 Scenario.dest = Ok (initial_xml ++ [terminator])%list /\
  ~ begins_with documented_start_block
      (descriptor_text (initial_xml ++ [terminator])%list).
Proof.
  split; [reflexivity|].
  intros [rest H].
  apply (f_equal (strip_prefix documented_start_block)) in H.
  rewrite strip_prefix_app in H. vm_compute in H. discriminate H.
Qed.

(** ** Duration texts *)

Lemma string_of_uint_digits (u : Decimal.uint) :
  all_digits (NilEmpty.string_of_uint u) = true.
Proof. induction u; cbn; auto. Qed.

Lemma str_int_digits (n : Z) : 0 <= n -> all_digits (str_int n) = true.
Proof.
  intros H. unfold str_int. destruct n as [|p|p]; [reflexivity| |lia].
  cbn [Z.to_int NilZero.string_of_int]. unfold NilZero.string_of_uint.
  destruct (Pos.to_uint p); try reflexivity; apply string_of_uint_digits.
Qed.

(** C3, as amended. For a positive image duration whose seconds stay
    below 10^16 (and a non-negative transition duration), every static
    segment carries the decimal of the duration times 60 followed by ".0"
    and every transition segment the decimal of the transition duration,
    which consists of digits only. *)
Theorem duration_texts (images : list Path) (d t : Z) (target : Path) :
  0 < d -> d * 60 < 10 ^ 16 -> 0 <= t ->
  duration_texts_as_claimed images d t target /\
  all_digits (str_int t) = true /\
  all_digits (str_int (d * 60)) = true.
Proof.
  intros Hd Hb Ht.
  destruct (seconds_repr d Hd Hb) as (seconds & Hs & Hr).
  destruct (xml_content_read images d t target seconds Hs)
    as (content & Hc & _ & _ & _ & _ & Hsd & Htd).
  split; [|split; apply str_int_digits; lia].
  exists content. rewrite <- Hr. auto.
Qed.

Lemma duration_texts_witness :
  0 < 5 /\ 5 * 60 < 10 ^ 16 /\ 0 <= 3 /\
  exists content,
    xml_content [child Scenario.source "a.jpg"] 5 3 Scenario.dest = Ok content /\
    durations static_marker content = ["300.0"] /\
    durations transition_marker content = ["3"].
Proof.
  repeat (split; [reflexivity || discriminate|]).
  destruct (duration_texts [child Scenario.source "a.jpg"] 5 3 Scenario.dest)
    as [H _]; [reflexivity|reflexivity|discriminate|exact H].
Defined.

(** C3, counterexample. An image duration of 10^15 minutes is a positive
    integer, and the static segment carries "6e+16": exponent notation,
    not the decimal of 6 * 10^16 followed by ".0". *)
Lemma duration_texts_counterexample :
  0 < 10 ^ 15 /\ 0 <= 3 /\
  (exists content,
     xml_content [child Scenario.source "a.jpg"] (10 ^ 15) 3 Scenario.dest
       = Ok content /\
     durations static_marker content = ["6e+16"]) /\
  ~ duration_texts_as_claimed [child Scenario.source "a.jpg"] (10 ^ 15) 3
      Scenario.dest.
Proof.
  split; [reflexivity|]. split; [discriminate|]. split.
  - eexists. split; vm_compute; reflexivity.
  - intros (content & Hc & Hs & _).
    vm_compute in Hc. inversion Hc; subst content; clear Hc.
    vm_compute in Hs. discriminate Hs.
Qed.

(** ** Enumeration of the images *)

Lemma fnmatch_literal pat :
  literal pat = true -> forall s, fnmatch pat s = String.eqb s pat.
Proof.
  induction pat as [|c pat IH]; intros Hl s.
  - reflexivity.
  - unfold literal in Hl. cbn [list_ascii_of_string forallb] in Hl.
    apply andb_true_iff in Hl. destruct Hl as [Hc Hl].
    apply andb_true_iff in Hc. destruct Hc as [H1 H2].
    apply negb_true_iff in H1, H2.
    cbn [fnmatch]. rewrite H1, H2.
    destruct s as [|c' s]; [reflexivity|].
    cbn [String.eqb]. rewrite (IH Hl), (Ascii.eqb_sym c c'). reflexivity.
Qed.

Lemma fnmatch_star pat s :
  fnmatch (String "*" pat) s =
  fnmatch pat s ||
  match s with
  | EmptyString => false
  | String _ s' => fnmatch (String "*" pat) s'
  end.
Proof. destruct s; reflexivity. Qed.

(** [*] followed by literal text matches the names ending with it. *)
Lemma fnmatch_star_suffix pat :
  literal pat = true ->
  forall s, fnmatch (String "*" pat) s = has_suffix pat s.
Proof.
  intros Hl s. induction s as [|c s IH].
  - rewrite fnmatch_star, (fnmatch_literal pat Hl). reflexivity.
  - rewrite fnmatch_star, (fnmatch_literal pat Hl), IH. reflexivity.
Qed.

Lemma fnmatch_any s : fnmatch "*" s = true.
Proof.
  induction s as [|c s IH]; [reflexivity|].
  rewrite fnmatch_star, IH. apply orb_true_r.
Qed.

Lemma has_suffix_iff suf s :
  has_suffix suf s = true <-> exists pre, s = pre ++ suf.
Proof.
  split.
  - induction s as [|c s IH]; cbn [has_suffix]; intros H.
    + rewrite orb_false_r in H. apply String.eqb_eq in H. exists "". exact H.
    + apply orb_true_iff in H. destruct H as [H|H].
      * apply String.eqb_eq in H. exists "". exact H.
      * destruct (IH H) as [pre ->]. exists (String c pre). reflexivity.
  - intros [pre ->]. induction pre as [|c pre IH].
    + cbn [append]. destruct suf; cbn [has_suffix]; rewrite String.eqb_refl; reflexivity.
    + cbn [append has_suffix]. rewrite IH. apply orb_true_r.
Qed.

(** The images of a directory, by the suffix of the entry names. *)
Lemma glob_all_extensions_by_suffix (fs : FS) (dir : Path) :
  glob_all_extensions fs dir extensions =
    if is_dir fs dir then
      map (child dir)
          (filter (has_suffix ".jpg") (scandir fs dir)
           ++ filter (has_suffix ".jpeg") (scandir fs dir)
           ++ filter (has_suffix ".png") (scandir fs dir))%list
    else [].
Proof.
  unfold glob_all_extensions, extensions, glob. cbn [flat_map append].
  destruct (is_dir fs dir); [|reflexivity].
  rewrite app_nil_r, !map_app.
  rewrite (filter_ext _ _ (fnmatch_star_suffix ".jpg" eq_refl)).
  rewrite (filter_ext _ _ (fnmatch_star_suffix ".jpeg" eq_refl)).
  rewrite (filter_ext _ _ (fnmatch_star_suffix ".png" eq_refl)).
  reflexivity.
Qed.

(** C10. The images of a directory are the entries matching *.jpg, then
    those matching *.jpeg, then those matching *.png: whatever the scan
    order, the names ending in .jpg come first, in scan order, then those
    ending in .jpeg, then those ending in .png; this is the list the
    Builder pairs. *)
Theorem extension_groups (fs : FS) (dir : Path) :
  glob_all_extensions fs dir extensions =
    (glob fs dir "*.jpg" ++ glob fs dir "*.jpeg" ++ glob fs dir "*.png")%list /\
  glob_all_extensions fs dir extensions =
    (if is_dir fs dir then
       map (child dir)
           (filter (has_suffix ".jpg") (scandir fs dir)
            ++ filter (has_suffix ".jpeg") (scandir fs dir)
            ++ filter (has_suffix ".png") (scandir fs dir))%list
     else []) /\
  forall d t target out,
    create_xml_file dir d t target (mkWorld fs out) =
    match xml_content (glob fs dir "*.jpg" ++ glob fs dir "*.jpeg"
                       ++ glob fs dir "*.png")%list d t target with
    | Raise e => (Raise e, mkWorld fs out)
    | Ok content =>
        on_fs (write_lines (xml_file_path target) content) (mkWorld fs out)
    end.
Proof.
  assert (E : glob_all_extensions fs dir extensions =
    (glob fs dir "*.jpg" ++ glob fs dir "*.jpeg" ++ glob fs dir "*.png")%list).
  { unfold glob_all_extensions, extensions. cbn [flat_map append].
    rewrite app_nil_r. reflexivity. }
  split; [exact E|]. split; [apply glob_all_extensions_by_suffix|].
  intros d t target out. rewrite <- E. reflexivity.
Qed.

Lemma Permutation_filter {A} (f : A -> bool) (l l' : list A) :
  Permutation l l' -> Permutation (filter f l) (filter f l').
Proof.
  induction 1 as [|x l l' _ IH|x y l|l l' l'' _ IH1 _ IH2]; cbn [filter].
  - constructor.
  - destruct (f x); [constructor|]; exact IH.
  - destruct (f x), (f y); try apply Permutation_refl. constructor.
  - eapply Permutation_trans; eassumption.
Qed.

Lemma filter_single {A} (f : A -> bool) (l : list A) (a b c : A) :
  Permutation l [a; b; c] -> filter f [a; b; c] = [a] \/
  filter f [a; b; c] = [b] \/ filter f [a; b; c] = [c] ->
  filter f l = filter f [a; b; c].
Proof.
  intros Hp Hf. apply (Permutation_filter f) in Hp.
  destruct Hf as [E|[E|E]]; rewrite E in *;
    apply Permutation_sym, Permutation_length_1_inv in Hp; exact Hp.
Qed.

(** C2, as amended. When the source directory holds exactly a.jpg, b.png
    and c.jpeg, in whatever scan order, the descriptor for durations 5
    and 3 and destination /dest/mydir has three static/transition pairs,
    every path is /dest/mydir/<name>, and the transitions are a.jpg to
    c.jpeg, c.jpeg to b.png, b.png to a.jpg. *)
Theorem three_images_scenario (fs : FS) :
  is_dir fs Scenario.source = true ->
  Permutation (scandir fs Scenario.source) ["a.jpg"; "b.png"; "c.jpeg"] ->
  exists content,
    xml_content (glob_all_extensions fs Scenario.source extensions)
                5 3 Scenario.dest = Ok content /\
    count_segments static_marker content = 3%nat /\
    count_segments transition_marker content = 3%nat /\
    static_files content =
      ["/dest/mydir/a.jpg"; "/dest/mydir/c.jpeg"; "/dest/mydir/b.png"] /\
    transitions content =
      [ ("/dest/mydir/a.jpg", "/dest/mydir/c.jpeg");
        ("/dest/mydir/c.jpeg", "/dest/mydir/b.png");
        ("/dest/mydir/b.png", "/dest/mydir/a.jpg") ] /\
    durations static_marker content = ["300.0"; "300.0"; "300.0"] /\
    durations transition_marker content = ["3"; "3"; "3"].
Proof.
  intros Hd Hp.
  pose proof (glob_all_extensions_by_suffix fs Scenario.source) as E.
  rewrite Hd in E.
  rewrite (filter_single (has_suffix ".jpg") _ _ _ _ Hp) in E by (left; reflexivity).
  rewrite (filter_single (has_suffix ".jpeg") _ _ _ _ Hp) in E
    by (right; right; reflexivity).
  rewrite (filter_single (has_suffix ".png") _ _ _ _ Hp) in E
    by (right; left; reflexivity).
  rewrite E. eexists. repeat split; vm_compute; reflexivity.
Qed.

Lemma three_images_scenario_witness :
  is_dir Scenario.disk Scenario.source = true /\
  Permutation (scandir Scenario.disk Scenario.source)
              ["a.jpg"; "b.png"; "c.jpeg"] /\
  exists content,
    xml_content (glob_all_extensions Scenario.disk Scenario.source extensions)
                5 3 Scenario.dest = Ok content /\
    transitions content =
      [ ("/dest/mydir/a.jpg", "/dest/mydir/c.jpeg");
        ("/dest/mydir/c.jpeg", "/dest/mydir/b.png");
        ("/dest/mydir/b.png", "/dest/mydir/a.jpg") ].
Proof.
  split; [reflexivity|]. split; [apply Permutation_refl|].
  destruct (three_images_scenario Scenario.disk)
    as (content & Hc & _ & _ & _ & Ht & _).
  - reflexivity.
  - apply Permutation_refl.
  - exists content. split; assumption.
Defined.

(** C2, counterexample. On the scenario's disk the descriptor is written
    and its transitions are not a to b, b to c, c to a. *)
Lemma three_images_counterexample :
  scandir Scenario.disk Scenario.source = ["a.jpg"; "b.png"; "c.jpeg"] /\
  exists content,
    xml_content (glob_all_extensions Scenario.disk Scenario.source extensions)
                5 3 Scenario.dest = Ok content /\
    fst (create_xml_file Scenario.source 5 3 Scenario.dest Scenario.world)
      = Ok tt /\
    lookup (fs (snd (create_xml_file Scenario.source 5 3 Scenario.dest
                                     Scenario.world)))
           (xml_file_path Scenario.dest)
      = Some (File (descriptor_text content)) /\
    transitions content <> Scenario.claimed_transitions.
Proof.
  split; [reflexivity|]. eexists.
  split; [vm_compute; reflexivity|].
  split; [vm_compute; reflexivity|].
  split; [vm_compute; reflexivity|].
  vm_compute. discriminate.
Qed.

(** ** The file system *)

Lemma parts_eqb_eq a b : parts_eqb a b = true <-> a = b.
Proof.
  revert b. induction a as [|x a IH]; intros [|y b]; cbn; split; intros H;
    try reflexivity; try discriminate.
  - apply andb_true_iff in H. destruct H as [H1 H2].
    apply String.eqb_eq in H1. apply IH in H2. now subst.
  - inversion H; subst. rewrite String.eqb_refl. cbn. now apply IH.
Qed.

Lemma Path_eqb_eq a b : Path_eqb a b = true <-> a = b.
Proof.
  destruct a as [ra pa], b as [rb pb]. unfold Path_eqb. cbn [root parts].
  split; intros H.
  - apply andb_true_iff in H. destruct H as [H1 H2].
    apply parts_eqb_eq in H2. subst.
    destruct ra, rb; try discriminate; reflexivity.
  - inversion H; subst. apply andb_true_iff. split.
    + destruct rb; reflexivity.
    + now apply parts_eqb_eq.
Qed.

Lemma Path_eqb_refl a : Path_eqb a a = true.
Proof. now apply Path_eqb_eq. Qed.

Lemma Path_eqb_neq a b : Path_eqb a b = false <-> a <> b.
Proof.
  split; intros H.
  - intros E. apply Path_eqb_eq in E. congruence.
  - destruct (Path_eqb a b) eqn:E; [|reflexivity].
    apply Path_eqb_eq in E. contradiction.
Qed.

Lemma Path_eqb_sym_false a b : Path_eqb a b = false -> Path_eqb b a = false.
Proof. rewrite !Path_eqb_neq. congruence. Qed.

Lemma assoc_store fs p n q :
  assoc (store fs p n) q = if Path_eqb p q then Some n else assoc fs q.
Proof.
  induction fs as [|[k m] fs IH]; cbn [store assoc].
  - reflexivity.
  - destruct (Path_eqb k p) eqn:Ekp.
    + apply Path_eqb_eq in Ekp. subst p. cbn [assoc].
      destruct (Path_eqb k q); reflexivity.
    + cbn [assoc]. rewrite IH.
      destruct (Path_eqb k q) eqn:Ekq; [|reflexivity].
      apply Path_eqb_eq in Ekq. subst q. rewrite Path_eqb_sym_false by exact Ekp.
      reflexivity.
Qed.

(** A store changes the node of its path only. *)
Lemma lookup_store_other fs p n q :
  q <> p -> lookup (store fs p n) q = lookup fs q.
Proof.
  intros H. unfold lookup. destruct (parts q); [reflexivity|].
  rewrite assoc_store.
  replace (Path_eqb p q) with false; [reflexivity|].
  symmetry. apply Path_eqb_neq. congruence.
Qed.

Lemma lookup_store_same fs p n :
  parts p <> [] -> lookup (store fs p n) p = Some n.
Proof.
  intros H. unfold lookup. destruct (parts p); [contradiction|].
  rewrite assoc_store, Path_eqb_refl. reflexivity.
Qed.

Lemma lookup_not_dir_parts fs p :
  lookup fs p <> Some Dir -> parts p <> [].
Proof. unfold lookup. destruct (parts p); [intros H; now elim H|discriminate]. Qed.

Lemma walk_raises fs r done todo p e :
  walk fs r done todo p = Raise e -> open_error p e = true.
Proof.
  revert done. induction todo as [|c todo IH]; intros done; cbn [walk].
  - discriminate.
  - destruct (lookup fs (mkPath r done)) as [[content|]|].
    + intros H. inversion H. cbn. apply Path_eqb_refl.
    + apply IH.
    + intros H. inversion H. cbn. apply Path_eqb_refl.
Qed.

(** What [write_file] does: it fails with an error of opening [p] and
    leaves the file system as it is, or it stores the file. *)
Lemma write_file_cases p content fs :
  (exists e, write_file p content fs = (Raise e, fs) /\ open_error p e = true) \/
  (write_file p content fs = (Ok tt, store fs p (File content)) /\
   parts p <> []).
Proof.
  unfold write_file. destruct (resolve_parent fs p) as [[]|e] eqn:E.
  - destruct (lookup fs p) as [[c|]|] eqn:El.
    + right. split; [reflexivity|]. apply (lookup_not_dir_parts fs). congruence.
    + left. eexists. split; [reflexivity|]. cbn. apply Path_eqb_refl.
    + right. split; [reflexivity|]. apply (lookup_not_dir_parts fs). congruence.
  - left. exists e. split; [reflexivity|]. apply (walk_raises _ _ _ _ _ _ E).
Qed.

Lemma store_store fs p a b : store (store fs p a) p b = store fs p b.
Proof.
  induction fs as [|[k m] fs IH]; cbn [store].
  - rewrite Path_eqb_refl. reflexivity.
  - destruct (Path_eqb k p) eqn:E; cbn [store]; rewrite E; [reflexivity|].
    rewrite IH. reflexivity.
Qed.

(** What [open_w] does: it fails with an error of opening [p] and leaves
    the file system as it is, or it leaves an empty file. *)
Lemma open_w_cases p fs :
  (exists e, open_w p fs = (Raise e, fs) /\ open_error p e = true) \/
  (open_w p fs = (Ok tt, store fs p (File "")) /\ parts p <> []).
Proof.
  unfold open_w. destruct (resolve_parent fs p) as [[]|e] eqn:E.
  - destruct (lookup fs p) as [[c|]|] eqn:El.
    + right. split; [reflexivity|]. apply (lookup_not_dir_parts fs). congruence.
    + left. eexists. split; [reflexivity|]. cbn. apply Path_eqb_refl.
    + right. split; [reflexivity|]. apply (lookup_not_dir_parts fs). congruence.
  - left. exists e. split; [reflexivity|]. apply (walk_raises _ _ _ _ _ _ E).
Qed.

(** [writelines] writes everything, or stops before the first element
    that cannot be encoded. *)
Lemma writelines_cases lines :
  forall written,
    (forallb encodable lines = true /\
     writelines lines written = (Ok tt, written ++ descriptor_text lines)) \/
    (exists k, (k < List.length lines)%nat /\
               encodable (nth k lines "") = false /\
               forallb encodable (firstn k lines) = true /\
               writelines lines written =
               (Raise UnicodeEncodeError,
                written ++ descriptor_text (firstn k lines))).
Proof.
  induction lines as [|line lines IH]; intros written.
  - left. split; [reflexivity|]. cbn. rewrite append_nil_r. reflexivity.
  - cbn [writelines forallb]. destruct (encodable line) eqn:E.
    + destruct (IH (written ++ line)) as [[Ha Hw]|(k & Hk & Hn & Hf & Hw)].
      * left. split; [exact Ha|]. rewrite Hw, descriptor_text_cons, append_assoc.
        reflexivity.
      * right. exists (S k). cbn [List.length nth firstn forallb].
        rewrite E, Hf, Hw, descriptor_text_cons, append_assoc.
        repeat split; auto. lia.
    + right. exists 0%nat. cbn [List.length nth firstn forallb].
      rewrite E. cbn. rewrite append_nil_r. repeat split; auto. lia.
Qed.

(** What [write_lines] does. *)
Lemma write_lines_cases p lines fs :
  (exists e, write_lines p lines fs = (Raise e, fs) /\ open_error p e = true) \/
  (parts p <> [] /\ forallb encodable lines = true /\
   write_lines p lines fs = (Ok tt, store fs p (File (descriptor_text lines)))) \/
  (parts p <> [] /\
   exists k, (k < List.length lines)%nat /\
             encodable (nth k lines "") = false /\
             forallb encodable (firstn k lines) = true /\
             write_lines p lines fs =
             (Raise UnicodeEncodeError,
              store fs p (File (descriptor_text (firstn k lines))))).
Proof.
  unfold write_lines.
  destruct (open_w_cases p fs) as [(e & E & He)|[E Hp]]; rewrite E.
  - left. exists e. auto.
  - right.
    destruct (writelines_cases lines "") as [[Ha Hw]|(k & Hk & Hn & Hf & Hw)];
      rewrite Hw, store_store; cbn [append].
    + left. auto.
    + right. split; [exact Hp|]. exists k. auto.
Qed.

Lemma utf8_from_start lo hi lo' hi' s :
  utf8_from 0 lo hi s = utf8_from 0 lo' hi' s.
Proof. destruct s; reflexivity. Qed.

Lemma utf8_from_app a b :
  forall need lo hi,
    utf8_from need lo hi a = true ->
    utf8_from need lo hi (a ++ b) = encodable b.
Proof.
  induction a as [|c a IH]; intros need lo hi H.
  - destruct need; [|discriminate]. apply utf8_from_start.
  - cbn [append]. cbn [utf8_from] in *. cbv zeta in *.
    destruct need.
    + repeat match type of H with
             | (if ?x then _ else _) = true => destruct x
             end; try discriminate; now apply IH.
    + destruct (_ && _); [now apply IH|discriminate].
Qed.

Lemma encodable_app a b :
  encodable a = true -> encodable b = true -> encodable (a ++ b) = true.
Proof. intros Ha Hb. unfold encodable at 1. rewrite (utf8_from_app a b _ _ _ Ha). exact Hb. Qed.

Lemma ascii_only_encodable s : ascii_only s = true -> encodable s = true.
Proof.
  unfold ascii_only, encodable. induction s as [|c s IH];
    cbn [list_ascii_of_string forallb utf8_from]; intros H; [reflexivity|].
  apply andb_true_iff in H. destruct H as [Hc Hs]. cbv zeta. rewrite Hc.
  apply (IH Hs).
Qed.

Lemma ascii_only_app a b :
  ascii_only (a ++ b) = ascii_only a && ascii_only b.
Proof.
  unfold ascii_only. induction a as [|c a IH];
    cbn [append list_ascii_of_string forallb]; [reflexivity|].
  rewrite IH, andb_assoc. reflexivity.
Qed.

Lemma all_digits_ascii s : all_digits s = true -> ascii_only s = true.
Proof.
  unfold all_digits, ascii_only. induction s as [|c s IH];
    cbn [list_ascii_of_string forallb]; intros H; [reflexivity|].
  apply andb_true_iff in H. destruct H as [Hc Hs]. rewrite (IH Hs), andb_true_r.
  destruct c as [[] [] [] [] [] [] [] []]; try discriminate Hc; reflexivity.
Qed.

Lemma str_int_ascii n : ascii_only (str_int n) = true.
Proof.
  destruct n as [|p|p].
  - reflexivity.
  - apply all_digits_ascii, str_int_digits. lia.
  - unfold str_int. cbn [Z.to_int NilZero.string_of_int].
    change (String "-" ?s) with ("-" ++ s). rewrite ascii_only_app.
    cbn [andb]. change (ascii_only "-") with true. cbn [andb].
    pose proof (str_int_digits (Z.pos p) ltac:(lia)) as H.
    unfold str_int in H. cbn [Z.to_int NilZero.string_of_int] in H.
    apply all_digits_ascii. exact H.
Qed.

Lemma rstrip_zeros_ascii s :
  ascii_only s = true -> ascii_only (PyFloat.rstrip_zeros s) = true.
Proof.
  unfold ascii_only. induction s as [|c s IH];
    cbn [list_ascii_of_string forallb PyFloat.rstrip_zeros]; intros H;
    [reflexivity|].
  apply andb_true_iff in H. destruct H as [Hc Hs]. specialize (IH Hs).
  destruct (PyFloat.rstrip_zeros s) as [|c' s'].
  - destruct (Ascii.eqb c "0"); cbn [list_ascii_of_string forallb];
      [reflexivity|]. rewrite Hc. reflexivity.
  - cbn [list_ascii_of_string forallb] in *. rewrite Hc. exact IH.
Qed.

Lemma float_repr_ascii x : ascii_only (PyFloat.float_repr x) = true.
Proof.
  assert (Hm : forall m, ascii_only (PyFloat.repr_magnitude m) = true).
  { intros m. unfold PyFloat.repr_magnitude.
    destruct (m =? 0); [reflexivity|]. cbv zeta.
    destruct (10 ^ 16 <=? _).
    - unfold PyFloat.repr_exponent. cbv zeta.
      rewrite !ascii_only_app, !str_int_ascii.
      pose proof (rstrip_zeros_ascii _ (str_int_ascii (PyFloat.shortest_decimal m))) as Hr.
      assert (Hx : ascii_only
                (match PyFloat.rstrip_zeros (str_int (PyFloat.shortest_decimal m)) with
                 | EmptyString => "0"
                 | String d EmptyString => String d EmptyString
                 | String d rest => String d ("." ++ rest)
                 end) = true).
      { destruct (PyFloat.rstrip_zeros _) as [|d [|c r]]; [reflexivity|exact Hr|].
        unfold ascii_only in *. cbn [list_ascii_of_string forallb append] in *.
        apply andb_true_iff in Hr. destruct Hr as [Hd Hr]. rewrite Hd.
        cbn [andb]. exact Hr. }
      rewrite Hx. destruct (_ <? 10); reflexivity.
    - rewrite ascii_only_app, str_int_ascii. reflexivity. }
  destruct x as [neg m|neg|]; cbn [PyFloat.float_repr].
  - rewrite ascii_only_app, Hm. destruct neg; reflexivity.
  - destruct neg; reflexivity.
  - reflexivity.
Qed.

Lemma forallb_flat_map {A B} (f : B -> bool) (g : A -> list B) (l : list A) :
  (forall x, In x l -> forallb f (g x) = true) ->
  forallb f (flat_map g l) = true.
Proof.
  induction l as [|a l IH]; intros H; [reflexivity|].
  change (flat_map g (a :: l)) with (g a ++ flat_map g l)%list.
  rewrite forallb_app, (H a (or_introl eq_refl)).
  apply IH. intros x Hx. apply H. now right.
Qed.

Lemma cyclic_pairs_in images pair :
  In pair (cyclic_pairs images) -> In (fst pair) images /\ In (snd pair) images.
Proof.
  unfold cyclic_pairs. intros H. apply in_map_iff in H.
  destruct H as (i & <- & Hi). apply in_seq in Hi. cbn [fst snd].
  split; apply nth_In; [lia|]. apply Nat.mod_upper_bound. lia.
Qed.

Lemma tagged_encodable (a s b : string) :
  ascii_only a = true -> ascii_only b = true -> encodable s = true ->
  encodable (a ++ s ++ b) = true.
Proof.
  intros Ha Hb Hs.
  apply encodable_app; [now apply ascii_only_encodable|].
  apply encodable_app; [exact Hs|now apply ascii_only_encodable].
Qed.

(** A descriptor can be encoded when the destination paths of its images
    can. *)
Lemma xml_content_encodable images d t target content :
  (forall image, In image images ->
                 encodable (destination target image) = true) ->
  xml_content images d t target = Ok content ->
  forallb encodable content = true.
Proof.
  intros Himages H.
  destruct (PyFloat.int_mul_float d PyFloat.sixty) as [seconds|e] eqn:E.
  - pose proof (xml_content_closed images d t target seconds E) as Hc.
    assert (Hcontent : content =
              (initial_xml
               ++ flat_map (image_segments seconds t target) (cyclic_pairs images)
               ++ [terminator])%list) by congruence.
    rewrite Hcontent, !forallb_app. apply andb_true_iff. split; [reflexivity|].
    apply andb_true_iff. split; [|reflexivity].
    apply forallb_flat_map. intros pair Hp.
    destruct (cyclic_pairs_in _ _ Hp) as [Hf Hs].
    unfold image_segments, static_segment, transition_segment.
    cbn [app forallb].
    rewrite !tagged_encodable;
      auto using ascii_only_encodable, float_repr_ascii, str_int_ascii.
  - destruct images as [|a images].
    + inversion H; subst content. reflexivity.
    + exfalso. revert H. unfold xml_content.
      rewrite (pair_elements_cyclic no_path).
      cbn [List.length seq map extend_loop]. unfold image_xml. rewrite E.
      discriminate.
Qed.

Lemma int_mul_float_raises d e :
  PyFloat.int_mul_float d PyFloat.sixty = Raise e -> e = OverflowError.
Proof.
  unfold PyFloat.int_mul_float, PyFloat.float_of_int.
  destruct (PyFloat.overflow_threshold <=? PyFloat.round53 (Z.abs d));
    intros H; inversion H. reflexivity.
Qed.

(** The Builder's list either is complete or the conversion of the
    duration overflowed. *)
Lemma xml_content_cases images d t target :
  (exists content, xml_content images d t target = Ok content) \/
  (xml_content images d t target = Raise OverflowError /\ images <> []).
Proof.
  destruct (PyFloat.int_mul_float d PyFloat.sixty) as [seconds|e] eqn:E.
  - left. eexists. apply (xml_content_closed images d t target seconds E).
  - apply int_mul_float_raises in E as E'. subst e.
    destruct images as [|a images].
    + left. eexists. reflexivity.
    + right. split; [|discriminate].
      unfold xml_content. rewrite (pair_elements_cyclic no_path).
      cbn [List.length seq map extend_loop]. unfold image_xml. rewrite E.
      reflexivity.
Qed.

Lemma create_xml_file_eq dir d t target w :
  create_xml_file dir d t target w =
  match xml_content (glob_all_extensions (fs w) dir extensions) d t target with
  | Raise e => (Raise e, w)
  | Ok content => on_fs (write_lines (xml_file_path target) content) w
  end.
Proof. reflexivity. Qed.

(** ** Effects and errors of the Builder and of validation *)

Lemma world_eta w : mkWorld (fs w) (stdout w) = w.
Proof. destruct w; reflexivity. Qed.

(** C6, as amended. The Builder returns nothing and prints nothing; its
    one effect is on the file <name>.xml of the destination directory,
    every other path being left as it was.  When it returns, that file
    holds the text of the descriptor.  When it raises
    [UnicodeEncodeError], an element of the descriptor that is not valid
    UTF-8 could not be written: the file has been created or emptied and
    holds the elements before that one.  When it raises another error,
    the world is unchanged. *)
Theorem builder_effect (dir : Path) (d t : Z) (target : Path) (w : World) :
  let r := fst (create_xml_file dir d t target w) in
  let w' := snd (create_xml_file dir d t target w) in
  stdout w' = stdout w /\
  (forall p, p <> xml_file_path target ->
             lookup (fs w') p = lookup (fs w) p) /\
  (r = Ok tt ->
   exists content,
     xml_content (glob_all_extensions (fs w) dir extensions) d t target
       = Ok content /\
     lookup (fs w') (xml_file_path target)
       = Some (File (descriptor_text content))) /\
  (r = Raise UnicodeEncodeError ->
   exists content k,
     xml_content (glob_all_extensions (fs w) dir extensions) d t target
       = Ok content /\
     (k < List.length content)%nat /\
     encodable (nth k content "") = false /\
     forallb encodable (firstn k content) = true /\
     lookup (fs w') (xml_file_path target)
       = Some (File (descriptor_text (firstn k content)))) /\
  (forall e, r = Raise e -> e <> UnicodeEncodeError -> w' = w).
Proof.
  cbv zeta. rewrite create_xml_file_eq.
  destruct (xml_content_cases (glob_all_extensions (fs w) dir extensions)
                              d t target) as [[content Ec]|[Ec _]]; rewrite Ec.
  - unfold on_fs.
    destruct (write_lines_cases (xml_file_path target) content (fs w))
      as [(e & E & He)|[(Hp & Ha & E)|(Hp & k & Hk & Hn & Hf & E)]];
      rewrite E; cbn [fst snd fs stdout].
    + repeat split; try discriminate; auto.
      * intros H. inversion H; subst e. discriminate He.
      * intros; apply world_eta.
    + repeat split; try discriminate.
      * intros p Hne. now apply lookup_store_other.
      * intros _. exists content. split; [reflexivity|].
        now apply lookup_store_same.
    + repeat split; try discriminate.
      * intros p Hne. now apply lookup_store_other.
      * intros _. exists content, k. repeat split; auto.
        now apply lookup_store_same.
      * intros e H Hne. inversion H; subst e. contradiction.
  - cbn [fst snd]. repeat split; try discriminate; auto.
Qed.

Lemma builder_effect_witness :
  (fst (create_xml_file Scenario.source 5 3 Scenario.dest Scenario.world)
     = Ok tt /\
   exists content,
     xml_content (glob_all_extensions Scenario.disk Scenario.source extensions)
                 5 3 Scenario.dest = Ok content /\
     lookup (fs (snd (create_xml_file Scenario.source 5 3 Scenario.dest
                                      Scenario.world)))
            (xml_file_path Scenario.dest)
       = Some (File (descriptor_text content))) /\
  (fst (create_xml_file Scenario.source 5 3 Scenario.dest
                        (mkWorld Scenario.disk_latin1 []))
     = Raise UnicodeEncodeError /\
   exists content k,
     xml_content (glob_all_extensions Scenario.disk_latin1 Scenario.source
                                      extensions)
                 5 3 Scenario.dest = Ok content /\
     (k < List.length content)%nat /\
     encodable (nth k content "") = false /\
     forallb encodable (firstn k content) = true /\
     lookup (fs (snd (create_xml_file Scenario.source 5 3 Scenario.dest
                                      (mkWorld Scenario.disk_latin1 []))))
            (xml_file_path Scenario.dest)
       = Some (File (descriptor_text (firstn k content)))) /\
  (fst (create_xml_file Scenario.source (2 ^ 1024) 3 Scenario.dest
                        Scenario.world)
     = Raise OverflowError /\
   OverflowError <> UnicodeEncodeError /\
   snd (create_xml_file Scenario.source (2 ^ 1024) 3 Scenario.dest
                        Scenario.world)
     = Scenario.world).
Proof.
  split; [|split].
  - split; [reflexivity|].
    apply (builder_effect Scenario.source 5 3 Scenario.dest Scenario.world).
    reflexivity.
  - split; [vm_compute; reflexivity|].
    apply (builder_effect Scenario.source 5 3 Scenario.dest
                          (mkWorld Scenario.disk_latin1 [])).
    vm_compute. reflexivity.
  - split; [vm_compute; reflexivity|]. split; [discriminate|].
    apply (builder_effect Scenario.source (2 ^ 1024) 3 Scenario.dest
                          Scenario.world) with (e := OverflowError).
    + vm_compute. reflexivity.
    + discriminate.
Defined.

(** C6, counterexample. On the scenario's disk the Builder creates the
    file /dest/mydir/mydir.xml: the file system is not left unchanged. *)
Lemma builder_effect_counterexample :
  fst (create_xml_file Scenario.source 5 3 Scenario.dest Scenario.world)
    = Ok tt /\
  lookup (fs Scenario.world) (xml_file_path Scenario.dest) = None /\
  lookup (fs (snd (create_xml_file Scenario.source 5 3 Scenario.dest
                                   Scenario.world)))
         (xml_file_path Scenario.dest) <> None /\
  fs (snd (create_xml_file Scenario.source 5 3 Scenario.dest Scenario.world))
    <> fs Scenario.world.
Proof.
  split; [reflexivity|]. split; [reflexivity|].
  split; vm_compute; discriminate.
Qed.

(** With a file name that is not valid UTF-8 among the images, the
    Builder stops at the first element that carries it: the descriptor
    file is left with the eighteen elements before it. *)
Lemma partial_descriptor_example :
  let w := mkWorld Scenario.disk_latin1 [] in
  let w' := snd (create_xml_file Scenario.source 5 3 Scenario.dest w) in
  fst (create_xml_file Scenario.source 5 3 Scenario.dest w)
    = Raise UnicodeEncodeError /\
  lookup (fs w) (xml_file_path Scenario.dest) = None /\
  exists content,
    xml_content (glob_all_extensions Scenario.disk_latin1 Scenario.source
                                     extensions)
                5 3 Scenario.dest = Ok content /\
    nth 18 content "" = "<to>/dest/mydir/" ++ Scenario.latin1_name ++ "</to>" ++ nl /\
    lookup (fs w') (xml_file_path Scenario.dest)
      = Some (File (descriptor_text (firstn 18 content))).
Proof.
  cbv zeta. split; [vm_compute; reflexivity|]. split; [reflexivity|].
  eexists. split; [vm_compute; reflexivity|].
  split; vm_compute; reflexivity.
Qed.

(** C5, as amended. The Builder validates no duration: it never raises
    a validation error, and for every image duration Python converts to
    a float (the magnitude is below 2^1024 - 2^970), be it 0 or negative,
    and every transition duration, be it negative, it builds the
    descriptor with these durations.  The durations are validated by
    [parse_arguments]: when the source path is a directory it raises
    [ImageDurationError] for an image duration of 0 or less, and, the
    image duration being positive, [TransitionDurationError] for a
    transition duration below 0. *)
Theorem duration_validation :
  (forall dir d t target w e,
      fst (create_xml_file dir d t target w) = Raise e ->
      validation_error e = false) /\
  (forall images d t target,
      Z.abs d < PyFloat.float_limit ->
      exists content,
        xml_content images d t target = Ok content /\
        count_segments static_marker content = List.length images /\
        durations transition_marker content =
          repeat (str_int t) (List.length images)) /\
  (forall ns w,
      is_dir (fs w) (images_directory_path ns) = true ->
      image_duration ns <= 0 ->
      parse_arguments (Ok ns) w
        = (Raise (ImageDurationError (image_duration ns)), w)) /\
  (forall ns w,
      is_dir (fs w) (images_directory_path ns) = true ->
      0 < image_duration ns ->
      transition_duration ns < 0 ->
      parse_arguments (Ok ns) w
        = (Raise (TransitionDurationError (transition_duration ns)), w)).
Proof.
  split; [|split; [|split]].
  - intros dir d t target w e. rewrite create_xml_file_eq.
    destruct (xml_content_cases (glob_all_extensions (fs w) dir extensions)
                                d t target) as [[content E]|[E _]]; rewrite E.
    + unfold on_fs.
      destruct (write_lines_cases (xml_file_path target) content (fs w))
        as [(e' & E' & He)|[(_ & _ & E')|(_ & k & _ & _ & _ & E')]];
        rewrite E'; cbn [fst]; intros H; inversion H; subst; try reflexivity.
      destruct e; try reflexivity; discriminate He.
    + cbn [fst]. intros H; inversion H; reflexivity.
  - intros images d t target Hd.
    destruct (int_mul_float_limit d) as [Hok _].
    destruct (Hok Hd) as [seconds Hs].
    destruct (xml_content_read images d t target seconds Hs)
      as (content & Hc & Hst & _ & _ & _ & _ & Htd).
    exists content. auto.
  - intros ns w Hd Hi. unfold parse_arguments, bind, lift. rewrite Hd.
    cbn [negb]. apply Z.leb_le in Hi. rewrite Hi. reflexivity.
  - intros ns w Hd Hi Ht. unfold parse_arguments, bind, lift. rewrite Hd.
    cbn [negb].
    replace (image_duration ns <=? 0) with false by (symmetry; apply Z.leb_gt; lia).
    apply Z.ltb_lt in Ht. rewrite Ht. reflexivity.
Qed.

Lemma duration_validation_witness :
  (fst (create_xml_file Scenario.source (2 ^ 1024) 3 Scenario.dest
                        Scenario.world) = Raise OverflowError /\
   validation_error OverflowError = false) /\
  (Z.abs 0 < PyFloat.float_limit /\
   exists content,
     xml_content [child Scenario.source "a.jpg"] 0 (-1) Scenario.dest
       = Ok content /\
     count_segments static_marker content = 1%nat /\
     durations transition_marker content = ["-1"]) /\
  parse_arguments (Ok (mkNamespace Scenario.source 0 3 None)) Scenario.world
    = (Raise (ImageDurationError 0), Scenario.world) /\
  parse_arguments (Ok (mkNamespace Scenario.source 5 (-1) None)) Scenario.world
    = (Raise (TransitionDurationError (-1)), Scenario.world).
Proof.
  destruct duration_validation as (H0 & Hb & H1 & H2).
  split; [|split; [|split]].
  - assert (E : fst (create_xml_file Scenario.source (2 ^ 1024) 3 Scenario.dest
                                     Scenario.world) = Raise OverflowError)
      by (vm_compute; reflexivity).
    split; [exact E|].
    exact (H0 Scenario.source (2 ^ 1024) 3 Scenario.dest Scenario.world _ E).
  - split; [reflexivity|].
    apply (Hb [child Scenario.source "a.jpg"] 0 (-1) Scenario.dest).
    reflexivity.
  - apply (H1 (mkNamespace Scenario.source 0 3 None) Scenario.world);
      [reflexivity|discriminate].
  - apply (H2 (mkNamespace Scenario.source 5 (-1) None) Scenario.world);
      reflexivity.
Defined.

(** C5, counterexample. Given an image duration of 0, or a transition
    duration of -1, the Builder returns and writes a descriptor with the
    durations "0.0" and "-1". *)
Lemma duration_validation_counterexample :
  fst (create_xml_file Scenario.source 0 3 Scenario.dest Scenario.world)
    = Ok tt /\
  fst (create_xml_file Scenario.source 5 (-1) Scenario.dest Scenario.world)
    = Ok tt /\
  exists content,
    xml_content (glob_all_extensions Scenario.disk Scenario.source extensions)
                0 (-1) Scenario.dest = Ok content /\
    durations static_marker content = ["0.0"; "0.0"; "0.0"] /\
    durations transition_marker content = ["-1"; "-1"; "-1"].
Proof.
  split; [reflexivity|]. split; [reflexivity|].
  eexists. repeat split; vm_compute; reflexivity.
Qed.

(** C9. When the source path is not a directory, the image duration is
    0 or less, or the transition duration is negative, [main] raises the
    validation error of [parse_arguments] and the world is the initial
    one: no directory created, no file written or copied, nothing
    printed. *)
Theorem validation_before_mutation (ns : Namespace) (w : World) :
  is_dir (fs w) (images_directory_path ns) = false \/
  image_duration ns <= 0 \/
  transition_duration ns < 0 ->
  exists e,
    validation_error e = true /\
    parse_arguments (Ok ns) w = (Raise e, w) /\
    main (Ok ns) w = (Raise e, w).
Proof.
  intros H.
  assert (Hp : exists e, validation_error e = true /\
                         parse_arguments (Ok ns) w = (Raise e, w)).
  { unfold parse_arguments, bind, lift.
    destruct (is_dir (fs w) (images_directory_path ns)) eqn:Ed; cbn [negb].
    - destruct (image_duration ns <=? 0) eqn:Ei.
      + eexists. split; [|reflexivity]. reflexivity.
      + destruct (transition_duration ns <? 0) eqn:Et.
        * eexists. split; [|reflexivity]. reflexivity.
        * apply Z.leb_gt in Ei. apply Z.ltb_ge in Et.
          destruct H as [H|[H|H]]; [discriminate|lia|lia].
    - eexists. split; [|reflexivity]. reflexivity. }
  destruct Hp as (e & He & Hp). exists e. repeat split; auto.
  unfold main, bind at 1. rewrite Hp. reflexivity.
Qed.

Lemma validation_before_mutation_witness :
  image_duration (mkNamespace Scenario.source 0 3 None) <= 0 /\
  main (Ok (mkNamespace Scenario.source 0 3 None)) Scenario.world
    = (Raise (ImageDurationError 0), Scenario.world).
Proof.
  split; [discriminate|].
  destruct (validation_before_mutation
              (mkNamespace Scenario.source 0 3 None) Scenario.world)
    as (e & _ & Hp & Hm).
  - right; left. discriminate.
  - rewrite Hm. vm_compute in Hp. inversion Hp. reflexivity.
Defined.

(** ** The copy step *)

Lemma split_slash_entry s :
  forallb (fun c => negb (Ascii.eqb c slash)) (list_ascii_of_string s) = true ->
  split_slash s = [s].
Proof.
  induction s as [|c s IH]; cbn [list_ascii_of_string forallb split_slash];
    intros H; [reflexivity|].
  apply andb_true_iff in H. destruct H as [Hc Hs].
  apply negb_true_iff in Hc. rewrite Hc, (IH Hs). reflexivity.
Qed.

Lemma splitroot_entry s :
  forallb (fun c => negb (Ascii.eqb c slash)) (list_ascii_of_string s) = true ->
  splitroot s = NoRoot.
Proof.
  destruct s as [|c1 s]; [reflexivity|].
  cbn [list_ascii_of_string forallb]. intros H.
  apply andb_true_iff in H. destruct H as [Hc _].
  apply negb_true_iff in Hc. unfold splitroot.
  destruct s as [|c2 [|c3 s]]; rewrite Hc; reflexivity.
Qed.

Lemma parse_path_entry n :
  entry_name n = true -> parse_path n = mkPath NoRoot [n].
Proof.
  unfold entry_name. intros H. apply andb_true_iff in H. destruct H as [Hc Hs].
  unfold parse_path. rewrite (splitroot_entry n Hs), (split_slash_entry n Hs).
  cbn [filter]. rewrite Hc. reflexivity.
Qed.

Lemma joinpath_entry p n : entry_name n = true -> joinpath p n = child p n.
Proof. intros H. unfold joinpath. rewrite (parse_path_entry n H). reflexivity. Qed.

Lemma name_child p n : name (child p n) = n.
Proof. unfold name, child. cbn [parts]. apply last_last. Qed.

Lemma child_inj a n b m : child a n = child b m -> a = b /\ n = m.
Proof.
  destruct a as [ra pa], b as [rb pb]. unfold child. cbn [root parts].
  intros H. inversion H as [[Hr Hp]]. apply app_inj_tail in Hp.
  destruct Hp; subst. auto.
Qed.

Lemma parts_child p n : parts (child p n) <> [].
Proof. unfold child. cbn [parts]. intros H. now apply app_eq_nil in H as [_ H]. Qed.

Lemma walk_ok fs r todo p :
  forall done,
    (forall k, (k < List.length todo)%nat ->
               is_dir fs (mkPath r (done ++ firstn k todo)) = true) ->
    walk fs r done todo p = Ok tt.
Proof.
  induction todo as [|c todo IH]; intros done H; cbn [walk]; [reflexivity|].
  pose proof (H 0%nat ltac:(cbn; lia)) as H0.
  cbn [firstn] in H0. rewrite app_nil_r in H0.
  unfold is_dir in H0.
  destruct (lookup fs (mkPath r done)) as [[content|]|]; try discriminate.
  apply IH. intros k Hk. rewrite <- app_assoc. cbn [app].
  apply (H (S k)). cbn. lia.
Qed.

Lemma resolve_parent_child fs p n :
  dir_chain fs p -> resolve_parent fs (child p n) = Ok tt.
Proof.
  intros H. unfold resolve_parent, child. cbn [root parts].
  apply walk_ok. intros k Hk. rewrite length_app in Hk. cbn in Hk.
  cbn [app]. rewrite firstn_app.
  replace (k - List.length (parts p))%nat with 0%nat by lia.
  cbn [firstn]. rewrite app_nil_r. apply H. lia.
Qed.

Lemma is_dir_store_file fs p c q :
  is_dir fs p = false -> is_dir (store fs p (File c)) q = is_dir fs q.
Proof.
  intros H. unfold is_dir.
  destruct (Path_eqb q p) eqn:E.
  - apply Path_eqb_eq in E. subst q.
    unfold is_dir in H.
    rewrite lookup_store_same.
    + destruct (lookup fs p) as [[x|]|]; try reflexivity. discriminate.
    + apply (lookup_not_dir_parts fs). intros E. rewrite E in H. discriminate.
  - apply Path_eqb_neq in E. rewrite lookup_store_other by exact E. reflexivity.
Qed.

Lemma dir_chain_store_file fs p c q :
  is_dir fs p = false -> dir_chain fs q -> dir_chain (store fs p (File c)) q.
Proof. intros H Hq k Hk. rewrite is_dir_store_file by exact H. now apply Hq. Qed.

(** One copy of the loop, for an entry that is a regular file. *)
Lemma shutil_copy_entry fs src target n c :
  dir_chain fs src -> dir_chain fs target -> src <> target ->
  entry_name n = true ->
  lookup fs (child src n) = Some (File c) ->
  is_dir fs (child target n) = false ->
  shutil_copy (child src n) (joinpath target (name (child src n))) fs =
  (Ok tt, store fs (child target n) (File c)).
Proof.
  intros Hs Ht Hne Hn Hl Hd.
  rewrite name_child, (joinpath_entry target n Hn).
  unfold shutil_copy. rewrite Hd. unfold copyfile.
  replace (Path_eqb (child src n) (child target n)) with false.
  2:{ symmetry. apply Path_eqb_neq. intros E. apply child_inj in E. tauto. }
  cbn [andb]. unfold read_file. rewrite (resolve_parent_child fs src n Hs), Hl.
  unfold write_file. rewrite (resolve_parent_child fs target n Ht).
  unfold is_dir in Hd.
  destruct (lookup fs (child target n)) as [[x|]|]; try reflexivity. discriminate.
Qed.

Section CopyLoop.
Variables (src target : Path).

Local Abbreviation body :=
  (fun image_path : Path =>
     on_fs (shutil_copy image_path (joinpath target (name image_path)))).

Lemma copy_loop names :
  forall fs0 out,
    copy_ready src target fs0 names ->
    exists fs',
      for_each (map (child src) names) body (mkWorld fs0 out)
        = (Ok tt, mkWorld fs' out) /\
      (forall n, In n names ->
                 lookup fs' (child target n) = lookup fs0 (child src n)) /\
      (forall p, (forall n, In n names -> p <> child target n) ->
                 lookup fs' p = lookup fs0 p).
Proof.
  induction names as [|n names IH]; intros fs0 out (Hs & Ht & Hne & He).
  - exists fs0. cbn. repeat split; auto. intros n [].
  - destruct (He n (or_introl eq_refl)) as (Hn & [c Hc] & Hd).
    set (fs1 := store fs0 (child target n) (File c)).
    assert (Hsrc : forall m, lookup fs1 (child src m) = lookup fs0 (child src m)).
    { intros m. apply lookup_store_other. intros E. apply child_inj in E. tauto. }
    assert (Hready : copy_ready src target fs1 names).
    { split; [now apply dir_chain_store_file|].
      split; [now apply dir_chain_store_file|].
      split; [exact Hne|].
      intros m Hm. destruct (He m (or_intror Hm)) as (Hm1 & Hm2 & Hm3).
      split; [exact Hm1|]. split.
      - rewrite Hsrc. exact Hm2.
      - unfold fs1. rewrite is_dir_store_file by exact Hd. exact Hm3. }
    destruct (IH fs1 out Hready) as (fs' & Hrun & Hcopied & Hframe).
    exists fs'. split; [|split].
    + cbn [map for_each]. unfold bind at 1. unfold on_fs at 1.
      cbn [fs stdout].
      rewrite (shutil_copy_entry fs0 src target n c Hs Ht Hne Hn Hc Hd).
      exact Hrun.
    + intros m Hm. destruct (in_dec string_dec m names) as [Hin|Hnin].
      * rewrite (Hcopied m Hin). apply Hsrc.
      * destruct Hm as [<-|Hm]; [|contradiction].
        rewrite Hframe.
        -- unfold fs1. rewrite lookup_store_same by apply parts_child.
           symmetry. exact Hc.
        -- intros k Hk E. apply child_inj in E. destruct E as [_ <-].
           contradiction.
    + intros p Hp. rewrite Hframe.
      * apply lookup_store_other. apply Hp. now left.
      * intros k Hk. apply Hp. now right.
Qed.
End CopyLoop.




(** * Further properties of the program *)

(** Taking, at each index, the element at the next index modulo the
    length rotates the list. *)
Lemma next_index_rotation {A} (d : A) (l : list A) :
  map (fun i => nth ((i + 1) mod List.length l) l d) (seq 0 (List.length l))
  = rotate_left l.
Proof.
  destruct l as [|a l]; [reflexivity|].
  cbn [List.length]. rewrite seq_S, map_app.
  cbn [map Nat.add]. unfold rotate_left. cbn [tl firstn]. f_equal.
  - transitivity (map (fun i => nth i l d) (seq 0 (List.length l)));
      [|apply map_nth_seq].
    apply map_ext_in. intros i Hi. apply in_seq in Hi.
    rewrite Nat.mod_small by lia.
    replace (i + 1)%nat with (S i) by lia. reflexivity.
  - replace (List.length l + 1)%nat with (S (List.length l)) by lia.
    rewrite Nat.Div0.mod_same. reflexivity.
Qed.

(** X1. [pair_elements] never raises: it yields one pair per element,
    whose first components are the elements in order and whose second
    components are the elements rotated one place to the left (nothing
    for the empty list). *)
Theorem pair_elements_rotation {A} (elements : list A) :
  exists pairs,
    pair_elements elements = map Ok pairs /\
    map fst pairs = elements /\
    map snd pairs = rotate_left elements.
Proof.
  destruct elements as [|a l]; [exists []; repeat split|].
  exists (map (fun i => (nth i (a :: l) a,
                         nth ((i + 1) mod List.length (a :: l)) (a :: l) a))
              (seq 0 (List.length (a :: l)))).
  split; [|split].
  - rewrite (pair_elements_cyclic a), map_map. reflexivity.
  - rewrite map_map. cbn [fst]. apply map_nth_seq.
  - rewrite map_map. cbn [snd]. apply next_index_rotation.
Qed.

(** X2. A path is among the images of a directory exactly when the
    directory exists as a directory and the path is one of its entries
    whose name ends in .jpg, .jpeg or .png. *)
Theorem image_membership (fs : FS) (dir p : Path) :
  In p (glob_all_extensions fs dir extensions) <->
  is_dir fs dir = true /\
  exists n, p = child dir n /\ In n (scandir fs dir) /\
            (has_suffix ".jpg" n = true \/ has_suffix ".jpeg" n = true \/
             has_suffix ".png" n = true).
Proof.
  rewrite glob_all_extensions_by_suffix.
  destruct (is_dir fs dir).
  - rewrite in_map_iff. setoid_rewrite in_app_iff. setoid_rewrite in_app_iff.
    setoid_rewrite filter_In. split.
    + intros (n & <- & H). split; [reflexivity|]. exists n. split; [reflexivity|].
      tauto.
    + intros (_ & n & -> & H). exists n. split; [reflexivity|]. tauto.
  - split; [intros []|intros [H _]; discriminate].
Qed.

Lemma has_suffix_length suf s :
  has_suffix suf s = true -> (String.length suf <= String.length s)%nat.
Proof.
  induction s as [|c s IH]; cbn [has_suffix]; intros H.
  - rewrite orb_false_r in H. apply String.eqb_eq in H. subst. lia.
  - apply orb_true_iff in H. destruct H as [H|H].
    + apply String.eqb_eq in H. subst. lia.
    + apply IH in H. cbn. lia.
Qed.

(** Of two suffixes of a string, the shorter is a suffix of the longer. *)
Lemma has_suffix_nested a b s :
  has_suffix a s = true -> has_suffix b s = true ->
  (String.length a <= String.length b)%nat -> has_suffix a b = true.
Proof.
  induction s as [|c s IH]; cbn [has_suffix]; intros Ha Hb Hl.
  - rewrite orb_false_r in Ha, Hb.
    apply String.eqb_eq in Ha, Hb. subst. reflexivity.
  - apply orb_true_iff in Ha, Hb. destruct Hb as [Hb|Hb].
    + apply String.eqb_eq in Hb. subst b. cbn [has_suffix].
      apply orb_true_iff. destruct Ha as [Ha|Ha]; auto.
    + destruct Ha as [Ha|Ha]; [|now apply IH].
      apply String.eqb_eq in Ha. subst a.
      apply has_suffix_length in Hb. cbn in Hl. lia.
Qed.

Lemma suffixes_exclusive a b s :
  (String.length a <= String.length b)%nat -> has_suffix a b = false ->
  has_suffix a s = true -> has_suffix b s = false.
Proof.
  intros Hl Hab Ha. destruct (has_suffix b s) eqn:Hb; [|reflexivity].
  rewrite (has_suffix_nested a b s Ha Hb Hl) in Hab. discriminate.
Qed.

(** X3. No entry is listed twice: the three patterns exclude each
    other, so a scan without repeated names gives images without
    repetition. *)
Theorem images_without_duplicates (fs : FS) (dir : Path) :
  NoDup (scandir fs dir) -> NoDup (glob_all_extensions fs dir extensions).
Proof.
  intros Hn. rewrite glob_all_extensions_by_suffix.
  destruct (is_dir fs dir); [|constructor].
  apply Finite.Injective_map_NoDup.
  { intros x y E. apply child_inj in E. tauto. }
  apply NoDup_app; [now apply NoDup_filter| |].
  - apply NoDup_app; try now apply NoDup_filter.
    intros n H1 H2. apply filter_In in H1, H2.
    destruct H1 as [_ H1], H2 as [_ H2].
    rewrite (suffixes_exclusive ".png" ".jpeg" n) in H1;
      [discriminate|cbn; lia|reflexivity|exact H2].
  - intros n H1 H2. apply filter_In in H1. destruct H1 as [_ H1].
    apply in_app_iff in H2. destruct H2 as [H2|H2];
      apply filter_In in H2; destruct H2 as [_ H2].
    + rewrite (suffixes_exclusive ".jpg" ".jpeg" n) in H2;
        [discriminate|cbn; lia|reflexivity|exact H1].
    + rewrite (suffixes_exclusive ".jpg" ".png" n) in H2;
        [discriminate|cbn; lia|reflexivity|exact H1].
Qed.

Lemma images_without_duplicates_witness :
  NoDup (scandir Scenario.disk Scenario.source) /\
  NoDup (glob_all_extensions Scenario.disk Scenario.source extensions).
Proof.
  assert (H : NoDup (scandir Scenario.disk Scenario.source)).
  { vm_compute. repeat constructor; cbn; intuition discriminate. }
  split; [exact H|]. apply (images_without_duplicates _ _ H).
Defined.


(** An error of the argument parser passes through, and the check
    of the source path comes first: when the path is not a directory,
    [ImageDirectoryPathError] is raised whatever the durations are. *)
Theorem parse_arguments_path_first (ns : Namespace) (w : World) (e : exn) :
  parse_arguments (Raise e) w = (Raise e, w) /\
  (is_dir (fs w) (images_directory_path ns) = false ->
   parse_arguments (Ok ns) w =
   (Raise (ImageDirectoryPathError (images_directory_path ns)), w)).
Proof.
  split; [reflexivity|]. intros H.
  unfold parse_arguments, bind, lift. rewrite H. reflexivity.
Qed.

Lemma parse_arguments_path_first_witness :
  is_dir Scenario.disk (parse_path "/home/user/missing") = false /\
  parse_arguments
    (Ok (mkNamespace (parse_path "/home/user/missing") 0 (-1) None))
    Scenario.world =
  (Raise (ImageDirectoryPathError (parse_path "/home/user/missing")),
   Scenario.world).
Proof.
  split; [reflexivity|].
  apply (parse_arguments_path_first
           (mkNamespace (parse_path "/home/user/missing") 0 (-1) None)
           Scenario.world OverflowError).
  reflexivity.
Defined.

Lemma rotate_left_map {A B} (f : A -> B) (l : list A) :
  rotate_left (map f l) = map f (rotate_left l).
Proof.
  unfold rotate_left. destruct l as [|a l]; [reflexivity|].
  cbn [map tl firstn]. rewrite map_app. reflexivity.
Qed.

Lemma cyclic_pairs_fst images : map fst (cyclic_pairs images) = images.
Proof. unfold cyclic_pairs. rewrite map_map. cbn [fst]. apply map_nth_seq. Qed.

Lemma cyclic_pairs_snd images :
  map snd (cyclic_pairs images) = rotate_left images.
Proof.
  unfold cyclic_pairs. rewrite map_map. cbn [snd]. apply next_index_rotation.
Qed.

(** X5. In a descriptor the transitions leave the images in the order
    of the static segments, and the paths they lead to are the same
    paths rotated one place: every image is left once and reached
    once. *)
Theorem transitions_rotation (images : list Path) (d t : Z) (target : Path) :
  Z.abs d < 2 ^ 1023 ->
  exists content,
    xml_content images d t target = Ok content /\
    map fst (transitions content) = static_files content /\
    map snd (transitions content) = rotate_left (static_files content).
Proof.
  intros Hd. destruct (int_mul_float_ok d Hd) as [seconds Hs].
  destruct (xml_content_read images d t target seconds Hs)
    as (content & Hc & _ & _ & Ht & Hf & _).
  exists content. split; [exact Hc|]. rewrite Ht, Hf, !map_map. cbn [fst snd].
  split.
  - rewrite <- (map_map fst (destination target)), cyclic_pairs_fst.
    reflexivity.
  - rewrite <- (map_map snd (destination target)), cyclic_pairs_snd.
    symmetry. apply rotate_left_map.
Qed.

Lemma transitions_rotation_witness :
  Z.abs 5 < 2 ^ 1023 /\
  exists content,
    xml_content (glob_all_extensions Scenario.disk Scenario.source extensions)
                5 3 Scenario.dest = Ok content /\
    map snd (transitions content) =
      ["/dest/mydir/c.jpeg"; "/dest/mydir/b.png"; "/dest/mydir/a.jpg"].
Proof.
  split; [reflexivity|].
  destruct (transitions_rotation
              (glob_all_extensions Scenario.disk Scenario.source extensions)
              5 3 Scenario.dest) as (content & Hc & _ & Hs); [reflexivity|].
  exists content. split; [exact Hc|]. rewrite Hs.
  vm_compute in Hc. inversion Hc. reflexivity.
Defined.

Lemma length_image_segments seconds t target pairs :
  List.length (flat_map (image_segments seconds t target) pairs)
  = (11 * List.length pairs)%nat.
Proof.
  induction pairs as [|pair pairs IH]; [reflexivity|].
  cbn [flat_map List.length]. rewrite length_app, IH.
  unfold image_segments, static_segment, transition_segment. cbn [List.length app].
  lia.
Qed.

Lemma xml_content_overflow a images d t target e :
  PyFloat.int_mul_float d PyFloat.sixty = Raise e ->
  xml_content (a :: images) d t target = Raise OverflowError.
Proof.
  intros E. apply int_mul_float_raises in E as E'. subst e.
  unfold xml_content. rewrite (pair_elements_cyclic no_path).
  cbn [List.length seq map extend_loop]. unfold image_xml. rewrite E.
  reflexivity.
Qed.

(** X6. The Builder's list either has 10 + 11 N elements for N images
    and ends with the terminator, or there is at least one image and the
    image duration, of magnitude 2^1023 or more, made the conversion to
    float raise [OverflowError]. *)
Theorem descriptor_shape (images : list Path) (d t : Z) (target : Path) :
  (exists content,
     xml_content images d t target = Ok content /\
     List.length content = (10 + 11 * List.length images)%nat /\
     last content "" = terminator) \/
  (xml_content images d t target = Raise OverflowError /\
   images <> [] /\ 2 ^ 1023 <= Z.abs d).
Proof.
  destruct (PyFloat.int_mul_float d PyFloat.sixty) as [seconds|e] eqn:E.
  - left. eexists. split; [apply (xml_content_closed _ _ _ _ _ E)|]. split.
    + rewrite !length_app, length_image_segments, cyclic_pairs_length.
      change (List.length initial_xml) with 9%nat. cbn [List.length]. lia.
    + rewrite app_assoc. apply last_last.
  - destruct images as [|a images].
    + left. eexists. split; [reflexivity|]. split; reflexivity.
    + right. split; [apply (xml_content_overflow _ _ _ _ _ _ E)|].
      split; [discriminate|].
      destruct (Z_lt_le_dec (Z.abs d) (2 ^ 1023)) as [Hlt|Hge]; [|exact Hge].
      destruct (int_mul_float_ok d Hlt) as [s Hs]. congruence.
Qed.

(** X9. An image duration of magnitude 2^1024 or more, which
    [parse_arguments] accepts when positive, makes [create_xml_file]
    raise [OverflowError] as soon as the directory has an image; nothing
    is written. *)
Theorem huge_duration_overflows (dir : Path) (d t : Z) (target : Path)
  (w : World) :
  2 ^ 1024 <= Z.abs d ->
  glob_all_extensions (fs w) dir extensions <> [] ->
  create_xml_file dir d t target w = (Raise OverflowError, w).
Proof.
  intros Hd Hne. rewrite create_xml_file_eq.
  destruct (glob_all_extensions (fs w) dir extensions) as [|a images];
    [contradiction|].
  assert (E : PyFloat.int_mul_float d PyFloat.sixty = Raise OverflowError).
  { unfold PyFloat.int_mul_float, PyFloat.float_of_int.
    pose proof (round53_ge (Z.abs d) 1024 ltac:(lia) Hd) as Hr.
    apply Z.leb_le in Hr. unfold PyFloat.overflow_threshold. rewrite Hr.
    reflexivity. }
  rewrite (xml_content_overflow _ _ _ _ _ _ E). reflexivity.
Qed.

Lemma huge_duration_overflows_witness :
  2 ^ 1024 <= Z.abs (2 ^ 1024) /\
  parse_arguments (Ok (mkNamespace Scenario.source (2 ^ 1024) 3 None))
                  Scenario.world
    = (Ok (mkNamespace Scenario.source (2 ^ 1024) 3 None), Scenario.world) /\
  create_xml_file Scenario.source (2 ^ 1024) 3 Scenario.dest Scenario.world
    = (Raise OverflowError, Scenario.world).
Proof.
  split; [discriminate|]. split; [reflexivity|].
  apply (huge_duration_overflows Scenario.source (2 ^ 1024) 3 Scenario.dest
                                 Scenario.world).
  - discriminate.
  - discriminate.
Defined.

Lemma concat_snoc sep (ps : list string) (n : string) :
  ps <> [] ->
  String.concat sep (ps ++ [n]) = String.concat sep ps ++ sep ++ n.
Proof.
  induction ps as [|a ps IH]; [contradiction|]. intros _.
  destruct ps as [|b ps].
  - reflexivity.
  - change (String.concat sep ((a :: b :: ps) ++ [n]))
      with (a ++ sep ++ String.concat sep ((b :: ps) ++ [n])).
    rewrite IH by discriminate.
    change (String.concat sep (a :: b :: ps))
      with (a ++ sep ++ String.concat sep (b :: ps)).
    rewrite !append_assoc. reflexivity.
Qed.

Lemma path_str_parts p :
  parts p <> [] -> path_str p = root_str (root p) ++ String.concat "/" (parts p).
Proof.
  destruct p as [r [|a ps]]; [contradiction|]. intros _.
  destruct r; reflexivity.
Qed.

Lemma path_str_child target n :
  path_str (child target n) =
  match parts target with
  | [] => root_str (root target) ++ n
  | _ => path_str target ++ "/" ++ n
  end.
Proof.
  rewrite path_str_parts by apply parts_child.
  unfold child. cbn [root parts].
  destruct (parts target) as [|a ps] eqn:E; [reflexivity|].
  rewrite concat_snoc by discriminate.
  rewrite path_str_parts by (rewrite E; discriminate).
  rewrite E, append_assoc. reflexivity.
Qed.

(** X7. The path a descriptor gives to an image is the destination
    directory followed by a slash and the image's file name; the source
    directory does not occur in it. *)
Theorem destination_under_target (target source : Path) (n : string) :
  entry_name n = true ->
  destination target (child source n) =
  match parts target with
  | [] => root_str (root target) ++ n
  | _ => path_str target ++ "/" ++ n
  end.
Proof.
  intros Hn. unfold destination.
  rewrite name_child, (joinpath_entry target n Hn). apply path_str_child.
Qed.

Lemma destination_under_target_witness :
  entry_name "a.jpg" = true /\
  destination Scenario.dest (child Scenario.source "a.jpg") = "/dest/mydir/a.jpg".
Proof.
  split; [reflexivity|].
  rewrite (destination_under_target Scenario.dest Scenario.source "a.jpg");
    reflexivity.
Defined.

Lemma entry_name_xml x : no_slash x = true -> entry_name (x ++ ".xml") = true.
Proof.
  intros H. unfold entry_name. apply andb_true_iff. split.
  - unfold is_component. destruct x as [|c x]; cbn; [reflexivity|].
    destruct x; destruct (Ascii.eqb c "."); reflexivity.
  - revert H. unfold no_slash. induction x as [|c x IH];
      cbn [append list_ascii_of_string forallb]; intros H; [reflexivity|].
    apply andb_true_iff in H. destruct H as [Hc Hx].
    rewrite Hc. cbn [andb]. apply (IH Hx).
Qed.

(** X8. The descriptor file is the entry <name>.xml of the destination
    directory, <name> being the last part of that directory's path. *)
Theorem descriptor_file_path (target : Path) :
  no_slash (name target) = true ->
  xml_file_path target = child target (name target ++ ".xml") /\
  name (xml_file_path target) = name target ++ ".xml" /\
  parent (xml_file_path target) = target.
Proof.
  intros H. unfold xml_file_path.
  rewrite (joinpath_entry target _ (entry_name_xml _ H)).
  split; [reflexivity|]. split; [apply name_child|].
  unfold parent, child. cbn [root parts]. rewrite removelast_last.
  destruct target; reflexivity.
Qed.

Lemma descriptor_file_path_witness :
  no_slash (name Scenario.dest) = true /\
  path_str (xml_file_path Scenario.dest) = "/dest/mydir/mydir.xml".
Proof.
  split; [reflexivity|].
  destruct (descriptor_file_path Scenario.dest) as [E _]; [reflexivity|].
  rewrite E. reflexivity.
Defined.

Lemma kept_refl fs : kept fs fs.
Proof. intros p. auto. Qed.

Lemma kept_trans a b c : kept a b -> kept b c -> kept a c.
Proof. intros H1 H2 p. destruct (H1 p), (H2 p). auto. Qed.

Lemma kept_store fs p n :
  (is_dir fs p = true -> n = Dir) -> kept fs (store fs p n).
Proof.
  intros H q. destruct (Path_eqb q p) eqn:E.
  - apply Path_eqb_eq in E. subst q. unfold exists_, is_dir in *.
    destruct (parts p) eqn:Ep.
    + unfold lookup. rewrite Ep. auto.
    + rewrite lookup_store_same by (rewrite Ep; discriminate).
      split; [reflexivity|]. intros Hd. rewrite (H Hd). reflexivity.
  - apply Path_eqb_neq in E. unfold exists_, is_dir.
    rewrite lookup_store_other by exact E. auto.
Qed.

Lemma kept_os_mkdir p fs : kept fs (snd (os_mkdir p fs)).
Proof.
  unfold os_mkdir. destruct (resolve_parent fs p); [|apply kept_refl].
  destruct (exists_ fs p) eqn:E; cbn [snd]; [apply kept_refl|].
  apply kept_store. intros _. reflexivity.
Qed.

Lemma kept_mkdir_exist_ok p fs : kept fs (snd (mkdir_exist_ok p fs)).
Proof.
  unfold mkdir_exist_ok. pose proof (kept_os_mkdir p fs) as H.
  destruct (os_mkdir p fs) as [[u|e] fs']; cbn [snd] in *; [exact H|].
  destruct e; try (destruct (is_dir fs' p)); exact H.
Qed.

Lemma kept_mkdir_rec r rparts :
  forall fs, kept fs (snd (mkdir_rec r rparts fs)).
Proof.
  induction rparts as [|c rparts IH]; intros fs; cbn [mkdir_rec].
  - pose proof (kept_os_mkdir (mkPath r (rev [])) fs) as H0.
    destruct (os_mkdir (mkPath r (rev [])) fs) as [[u|e] fs'];
      cbn [snd] in *; [exact H0|].
    destruct e; try (destruct (is_dir fs' _)); exact H0.
  - pose proof (kept_os_mkdir (mkPath r (rev (c :: rparts))) fs) as H1.
    destruct (os_mkdir (mkPath r (rev (c :: rparts))) fs) as [[u|e] fs'];
      cbn [snd] in *; [exact H1|].
    destruct e; try (destruct (is_dir fs' _)); try exact H1.
    pose proof (IH fs') as H2.
    destruct (mkdir_rec r rparts fs') as [[u|e] fs'']; cbn [snd] in *.
    + eapply kept_trans; [exact H1|]. eapply kept_trans; [exact H2|].
      apply kept_mkdir_exist_ok.
    + eapply kept_trans; eassumption.
Qed.

Lemma kept_write_file p content fs : kept fs (snd (write_file p content fs)).
Proof.
  unfold write_file. destruct (resolve_parent fs p); [|apply kept_refl].
  destruct (lookup fs p) as [[c|]|] eqn:E; cbn [snd];
    try apply kept_refl; apply kept_store; unfold is_dir; rewrite E;
    discriminate.
Qed.

Lemma kept_shutil_copy src dst fs : kept fs (snd (shutil_copy src dst fs)).
Proof.
  unfold shutil_copy, copyfile.
  destruct (Path_eqb src _ && exists_ fs src); [apply kept_refl|].
  destruct (read_file src fs); [apply kept_write_file|apply kept_refl].
Qed.

Lemma keeps_bind {A B} (m : M A) (k : A -> M B) :
  keeps m -> (forall x, keeps (k x)) -> keeps (bind m k).
Proof.
  intros Hm Hk w. unfold bind. pose proof (Hm w) as H.
  destruct (m w) as [[x|e] w1]; cbn [snd] in *; [|exact H].
  eapply kept_trans; [exact H|apply Hk].
Qed.

Lemma keeps_on_fs {A} (op : FS -> result A * FS) :
  (forall fs, kept fs (snd (op fs))) -> keeps (on_fs op).
Proof.
  intros H w. unfold on_fs. pose proof (H (fs w)) as Hw.
  destruct (op (fs w)) as [r fs']. exact Hw.
Qed.

Lemma keeps_print s : keeps (print s).
Proof. intros w. apply kept_refl. Qed.

Lemma keeps_ret {A} (x : A) : keeps (ret x).
Proof. intros w. apply kept_refl. Qed.

Lemma keeps_for_each {A} (xs : list A) (body : A -> M unit) :
  (forall x, keeps (body x)) -> keeps (for_each xs body).
Proof.
  intros H. induction xs as [|x xs IH]; cbn [for_each].
  - apply keeps_ret.
  - apply keeps_bind; auto.
Qed.

Lemma kept_write_lines p lines fs : kept fs (snd (write_lines p lines fs)).
Proof.
  unfold write_lines, open_w.
  destruct (resolve_parent fs p); [|apply kept_refl].
  destruct (lookup fs p) as [[c|]|] eqn:E; cbn [snd]; try apply kept_refl;
    destruct (writelines lines "") as [r written]; cbn [snd];
    rewrite store_store; apply kept_store; unfold is_dir; rewrite E;
    discriminate.
Qed.

Lemma keeps_create_xml_file dir d t target :
  keeps (create_xml_file dir d t target).
Proof.
  intros w. rewrite create_xml_file_eq.
  destruct (xml_content _ d t target); [|apply kept_refl].
  apply (keeps_on_fs _ (kept_write_lines _ _)).
Qed.

Lemma keeps_copy_images src target : keeps (copy_images src target).
Proof.
  intros w. unfold copy_images.
  apply (keeps_for_each (glob (fs w) src "*")).
  intros x. apply keeps_on_fs. intros fs0. apply kept_shutil_copy.
Qed.

Lemma keeps_parse_arguments parsed : keeps (parse_arguments parsed).
Proof.
  intros w. unfold parse_arguments, bind, lift.
  destruct parsed as [ns|e]; [|apply kept_refl].
  destruct (negb _); [apply kept_refl|].
  destruct (_ <=? _); [apply kept_refl|].
  destruct (_ <? _); apply kept_refl.
Qed.

(** X11. [main] removes nothing: whatever the arguments and the file
    system, and whether it returns or raises, every path that existed
    still exists afterwards and every directory is still a
    directory. *)
Theorem main_keeps_paths (parsed : result Namespace) (w : World) (p : Path) :
  (exists_ (fs w) p = true -> exists_ (fs (snd (main parsed w))) p = true) /\
  (is_dir (fs w) p = true -> is_dir (fs (snd (main parsed w))) p = true).
Proof.
  revert p. change (kept (fs w) (fs (snd (main parsed w)))).
  revert w. change (keeps (main parsed)). unfold main.
  apply keeps_bind; [apply keeps_parse_arguments|]. intros arguments.
  repeat (apply keeps_bind; [|intros ?]);
    try apply keeps_print; try apply keeps_ret;
    try apply keeps_create_xml_file; try apply keeps_copy_images.
  apply keeps_on_fs. intros fs0. apply kept_mkdir_rec.
Qed.






(** [main] step by step. *)
Lemma main_eq ns w :
  main (Ok ns) w =
  match parse_arguments (Ok ns) w with
  | (Raise e, w0) => (Raise e, w0)
  | (Ok arguments, w0) =>
      let w1 := mkWorld (fs w0) (stdout w0 ++ [nth 0 (progress_lines arguments) ""]) in
      match on_fs (mkdir_parents_exist_ok (target_directory arguments)) w1 with
      | (Raise e, w2) => (Raise e, w2)
      | (Ok _, w2) =>
          let w3 := mkWorld (fs w2) (stdout w2 ++ [nth 1 (progress_lines arguments) ""]) in
          match create_xml_file (images_directory_path arguments)
                  (image_duration arguments) (transition_duration arguments)
                  (target_directory arguments) w3 with
          | (Raise e, w4) => (Raise e, w4)
          | (Ok _, w4) =>
              let w5 := mkWorld (fs w4) (stdout w4 ++ [nth 2 (progress_lines arguments) ""]) in
              match copy_images (images_directory_path arguments)
                                (target_directory arguments) w5 with
              | (Raise e, w6) => (Raise e, w6)
              | (Ok _, w6) =>
                  (Ok 0, mkWorld (fs w6) (stdout w6 ++ [nth 3 (progress_lines arguments) ""]))
              end
          end
      end
  end.
Proof.
  unfold main, bind, print, ret.
  destruct (parse_arguments (Ok ns) w) as [[arguments|e] w0]; [|reflexivity].
  cbv zeta. fold (target_directory arguments).
  destruct (on_fs _ _) as [[u|e] w2]; [|reflexivity].
  destruct (create_xml_file _ _ _ _ _) as [[u'|e] w4]; [|reflexivity].
  destruct (copy_images _ _ _) as [[u''|e] w6]; reflexivity.
Qed.



(** ** A whole run of [main] *)

Lemma above_refl p : above p p.
Proof. split; [reflexivity|]. exists (List.length (parts p)). symmetry. apply firstn_all. Qed.

Lemma above_trans a b c : above a b -> above b c -> above a c.
Proof.
  intros [Hr [k Hk]] [Hr' [k' Hk']]. split; [congruence|].
  exists (Nat.min k k'). rewrite Hk, Hk', firstn_firstn. reflexivity.
Qed.

Lemma above_parent q p : above q p -> above (parent q) p.
Proof.
  intros [Hr [k Hk]]. split; [exact Hr|]. unfold parent. cbn [parts].
  destruct (Nat.le_gt_cases (List.length (parts p)) k) as [Hle|Hgt].
  - rewrite firstn_all2 in Hk by exact Hle. rewrite Hk.
    destruct (parts p) as [|a l] eqn:E using rev_ind.
    + exists 0%nat. reflexivity.
    + rewrite removelast_last. exists (List.length l).
      rewrite firstn_app, firstn_all, Nat.sub_diag. cbn [firstn].
      symmetry. apply app_nil_r.
  - destruct k as [|k].
    + exists 0%nat. rewrite Hk. reflexivity.
    + exists k. rewrite Hk. apply removelast_firstn. lia.
Qed.

Lemma above_prefix r l k : above (mkPath r (firstn k l)) (mkPath r l).
Proof. split; [reflexivity|]. exists k. reflexivity. Qed.

Lemma walk_ok_inv fs r todo p :
  forall done,
    walk fs r done todo p = Ok tt ->
    forall k, (k < List.length todo)%nat ->
              is_dir fs (mkPath r (done ++ firstn k todo)) = true.
Proof.
  induction todo as [|c todo IH]; intros done H k Hk; [cbn in Hk; lia|].
  cbn [walk] in H. unfold is_dir.
  destruct (lookup fs (mkPath r done)) as [[x|]|] eqn:E; try discriminate.
  destruct k as [|k].
  - cbn [firstn]. rewrite app_nil_r, E. reflexivity.
  - cbn [firstn]. specialize (IH _ H k ltac:(cbn in Hk; lia)).
    rewrite <- app_assoc in IH. exact IH.
Qed.

Lemma walk_no_file fs r todo p :
  forall done,
    (forall k c, (k < List.length todo)%nat ->
                 lookup fs (mkPath r (done ++ firstn k todo)) <> Some (File c)) ->
    walk fs r done todo p = Ok tt \/
    walk fs r done todo p = Raise (FileNotFoundError p).
Proof.
  induction todo as [|c todo IH]; intros done H; cbn [walk]; [now left|].
  destruct (lookup fs (mkPath r done)) as [[x|]|] eqn:E.
  - exfalso. apply (H 0%nat x); [cbn; lia|].
    cbn [firstn]. rewrite app_nil_r. exact E.
  - apply IH. intros k x Hk. rewrite <- app_assoc. apply (H (S k) x). cbn. lia.
  - now right.
Qed.

Lemma scandir_store_other fs p n d :
  parent p <> d -> scandir (store fs p n) d = scandir fs d.
Proof.
  intros H. induction fs as [|[k m] fs IH]; cbn [store scandir].
  - replace (Path_eqb (parent p) d) with false; [reflexivity|].
    symmetry. now apply Path_eqb_neq.
  - destruct (Path_eqb k p); cbn [scandir]; [reflexivity|].
    rewrite IH. reflexivity.
Qed.

Lemma grown_refl target fs : grown target fs fs.
Proof. split; intros; auto. Qed.

Lemma grown_trans target a b c :
  grown target a b -> grown target b c -> grown target a c.
Proof.
  intros [H1 S1] [H2 S2]. split.
  - intros q. destruct (H1 q) as [E1|(N1 & D1 & A1)], (H2 q) as [E2|(N2 & D2 & A2)].
    + left. congruence.
    + right. split; [congruence|]. split; [congruence|assumption].
    + right. split; [congruence|]. split; [congruence|assumption].
    + congruence.
  - intros d Hd. rewrite (S2 d Hd). apply (S1 d Hd).
Qed.

Lemma grown_store_dir target fs p :
  above p target -> lookup fs p = None ->
  grown target fs (store fs p Dir).
Proof.
  intros Ha Hn. split.
  - intros q. destruct (Path_eqb q p) eqn:E.
    + apply Path_eqb_eq in E. subst q. right. split; [exact Hn|]. split; [|exact Ha].
      apply lookup_store_same. apply (lookup_not_dir_parts fs). congruence.
    + left. apply lookup_store_other. now apply Path_eqb_neq.
  - intros d Hd. apply scandir_store_other. intros E. apply Hd. subst d.
    now apply above_parent.
Qed.

Lemma dir_chain_kept fs fs' p : kept fs fs' -> dir_chain fs p -> dir_chain fs' p.
Proof. intros Hk Hd k Hle. apply Hk. now apply Hd. Qed.

Lemma dir_chain_child fs p c :
  dir_chain fs p -> is_dir fs (child p c) = true -> dir_chain fs (child p c).
Proof.
  intros Hd Hc k Hk. unfold child in *. cbn [root parts] in *.
  rewrite length_app in Hk. cbn [List.length] in Hk.
  destruct (Nat.eq_dec k (List.length (parts p) + 1)) as [->|Hne].
  - rewrite firstn_all2 by (rewrite length_app; cbn; lia). exact Hc.
  - rewrite firstn_app. replace (k - List.length (parts p))%nat with 0%nat by lia.
    cbn [firstn]. rewrite app_nil_r. apply Hd. lia.
Qed.

Lemma dir_chain_above fs p q : dir_chain fs p -> above q p -> is_dir fs q = true.
Proof.
  intros Hd [Hr [k Hk]]. destruct q as [rq pq]. cbn [root parts] in *. subst.
  destruct (Nat.le_gt_cases k (List.length (parts p))) as [Hle|Hgt].
  - now apply Hd.
  - rewrite firstn_all2 by lia. rewrite <- (firstn_all (parts p)). apply Hd. lia.
Qed.

Lemma not_file_dir fs p :
  exists_ fs p = true -> (forall c, lookup fs p <> Some (File c)) ->
  is_dir fs p = true.
Proof.
  unfold exists_, is_dir. destruct (lookup fs p) as [[c|]|]; intros H Hn;
    try reflexivity; [now elim (Hn c)|discriminate].
Qed.

(** [mkdir(parents=True, exist_ok=True)] succeeds when no file is in the
    way, and only adds directories on the way. *)
Lemma mkdir_rec_creates target r :
  forall rparts fs,
    above (mkPath r (rev rparts)) target ->
    (forall q c, above q target -> lookup fs q <> Some (File c)) ->
    exists fs',
      mkdir_rec r rparts fs = (Ok tt, fs') /\
      dir_chain fs' (mkPath r (rev rparts)) /\
      grown target fs fs'.
Proof.
  induction rparts as [|c rparts IH]; intros fs Ha Hf.
  - exists fs. cbn [mkdir_rec rev]. unfold os_mkdir, resolve_parent.
    cbn [root parts walk]. cbn. split; [reflexivity|].
    split; [|apply grown_refl]. intros k _. destruct k; reflexivity.
  - set (p := mkPath r (rev (c :: rparts))) in *.
    assert (Hpa : above (mkPath r (rev rparts)) target).
    { apply above_parent in Ha. unfold parent, p in Ha. cbn [root parts rev] in Ha.
      rewrite removelast_last in Ha. exact Ha. }
    assert (Hpc : p = child (mkPath r (rev rparts)) c) by reflexivity.
    assert (Hstep : forall fs1,
               dir_chain fs1 (mkPath r (rev rparts)) ->
               (forall q x, above q target -> lookup fs1 q <> Some (File x)) ->
               exists fs', (os_mkdir p fs1 = (Ok tt, fs') \/
                            (exists e, os_mkdir p fs1 = (Raise e, fs') /\
                                       (forall q, e <> FileNotFoundError q) /\
                                       is_dir fs' p = true)) /\
                           dir_chain fs' p /\ grown target fs1 fs').
    { intros fs1 Hd1 Hf1. unfold os_mkdir.
      rewrite Hpc, (resolve_parent_child fs1 _ c Hd1), <- Hpc.
      destruct (exists_ fs1 p) eqn:Ex.
      - exists fs1. pose proof (not_file_dir fs1 p Ex (fun x => Hf1 p x Ha)) as Hdir.
        split; [right; eexists; split; [reflexivity|split; [discriminate|exact Hdir]]|].
        split; [|apply grown_refl]. rewrite Hpc. apply dir_chain_child; [exact Hd1|].
        rewrite <- Hpc. exact Hdir.
      - exists (store fs1 p Dir). split; [now left|].
        assert (Hn : lookup fs1 p = None)
          by (unfold exists_ in Ex; destruct (lookup fs1 p); [discriminate|reflexivity]).
        assert (Hk : kept fs1 (store fs1 p Dir)) by (apply kept_store; reflexivity).
        split; [|now apply grown_store_dir].
        rewrite Hpc. apply dir_chain_child;
          [apply (dir_chain_kept _ _ _ Hk Hd1)|].
        rewrite <- Hpc. unfold is_dir. rewrite lookup_store_same; [reflexivity|].
        apply (lookup_not_dir_parts fs1). congruence. }
    cbn [mkdir_rec]. fold p.
    assert (Hrp : resolve_parent fs p = walk fs r [] (rev (c :: rparts)) p)
      by reflexivity.
    destruct (walk_no_file fs r (rev (c :: rparts)) p []) as [Hw|Hw].
    { intros k x Hk. cbn [app]. apply Hf.
      apply (above_trans _ p); [apply above_prefix|exact Ha]. }
    + (* the parent chain exists *)
      assert (Hd : dir_chain fs (mkPath r (rev rparts))).
      { intros k Hk. cbn [root parts] in *.
        pose proof (walk_ok_inv fs r _ p [] Hw k) as H. cbn [app] in H.
        cbn [rev] in H. rewrite length_app in H. cbn [List.length] in H.
        rewrite firstn_app in H.
        replace (k - List.length (rev rparts))%nat with 0%nat in H by lia.
        cbn [firstn] in H. rewrite app_nil_r in H. apply H. lia. }
      destruct (Hstep fs Hd Hf) as (fs' & [E|(e & E & Hne & Hdir)] & Hdc & Hg).
      * exists fs'. rewrite E. auto.
      * exists fs'. rewrite E. split; [|auto].
        destruct e; try (rewrite Hdir; reflexivity). now elim (Hne path).
    + (* a directory above is missing *)
      unfold os_mkdir at 1. rewrite Hrp, Hw.
      destruct (IH fs Hpa Hf) as (fs1 & E1 & Hd1 & Hg1). rewrite E1.
      assert (Hf1 : forall q x, above q target -> lookup fs1 q <> Some (File x)).
      { intros q x Hq. destruct Hg1 as [Hl _].
        destruct (Hl q) as [Eq|(_ & Eq & _)]; rewrite Eq; [now apply Hf|discriminate]. }
      destruct (Hstep fs1 Hd1 Hf1) as (fs' & [E|(e & E & Hne & Hdir)] & Hdc & Hg).
      * exists fs'. unfold mkdir_exist_ok. rewrite E.
        split; [reflexivity|]. split; [exact Hdc|]. eapply grown_trans; eassumption.
      * exists fs'. unfold mkdir_exist_ok. rewrite E.
        split; [|split; [exact Hdc|eapply grown_trans; eassumption]].
        destruct e; try (rewrite Hdir; reflexivity). now elim (Hne path).
Qed.

Lemma split_slash_no_slash s :
  Forall (fun x => no_slash x = true) (split_slash s).
Proof.
  induction s as [|c s IH]; cbn [split_slash].
  - repeat constructor.
  - destruct (Ascii.eqb c slash) eqn:E.
    + constructor; [reflexivity|exact IH].
    + destruct (split_slash s) as [|h t].
      * repeat constructor. unfold no_slash. cbn. rewrite E. reflexivity.
      * inversion IH; subst. constructor; [|assumption].
        unfold no_slash in *. cbn [list_ascii_of_string forallb].
        rewrite E. cbn [negb andb]. assumption.
Qed.

Lemma parse_path_no_slash s :
  Forall (fun x => no_slash x = true) (parts (parse_path s)).
Proof.
  unfold parse_path. cbn [parts]. apply Forall_forall. intros x Hx.
  apply filter_In in Hx. destruct Hx as [Hx _].
  pose proof (split_slash_no_slash s) as H. rewrite Forall_forall in H. auto.
Qed.

Lemma last_no_slash l :
  Forall (fun x => no_slash x = true) l -> no_slash (last l "") = true.
Proof.
  induction 1 as [|x l Hx Hl IH]; [reflexivity|].
  destruct l; [exact Hx|exact IH].
Qed.

Lemma target_directory_no_slash ns : no_slash (name (target_directory ns)) = true.
Proof.
  unfold name. apply last_no_slash. unfold target_directory, joinpath.
  set (s := or_else _ _).
  pose proof (parse_path_no_slash s) as H.
  destruct (root (parse_path s)); try exact H.
  cbn [parts]. apply Forall_app. split; [|exact H].
  apply (parse_path_no_slash "/usr/share/backgrounds/").
Qed.

Lemma not_above_child t x : ~ above (child t x) t.
Proof.
  intros [_ [k Hk]]. unfold child in Hk. cbn [parts] in Hk.
  apply (f_equal (@List.length string)) in Hk.
  rewrite length_app, length_firstn in Hk. cbn in Hk. lia.
Qed.

Lemma parent_child t x : parent (child t x) = t.
Proof.
  unfold parent, child. cbn [root parts]. rewrite removelast_last.
  destruct t; reflexivity.
Qed.

Lemma grown_existing target fs fs' q :
  grown target fs fs' -> exists_ fs q = true -> lookup fs' q = lookup fs q.
Proof.
  intros [H _] He. destruct (H q) as [E|(N & _)]; [exact E|].
  unfold exists_ in He. rewrite N in He. discriminate.
Qed.

Lemma is_dir_exists fs q : is_dir fs q = true -> exists_ fs q = true.
Proof. unfold is_dir, exists_. destruct (lookup fs q) as [[c|]|]; auto. Qed.

Lemma dir_chain_grown target fs fs' p :
  grown target fs fs' -> dir_chain fs p -> dir_chain fs' p.
Proof.
  intros Hg Hd k Hk. specialize (Hd k Hk). unfold is_dir.
  rewrite (grown_existing _ _ _ _ Hg (is_dir_exists _ _ Hd)). exact Hd.
Qed.

Lemma dir_chain_self fs p : dir_chain fs p -> is_dir fs p = true.
Proof. intros H. apply (dir_chain_above fs p p H (above_refl p)). Qed.

Lemma glob_star fs d :
  is_dir fs d = true -> glob fs d "*" = map (child d) (scandir fs d).
Proof.
  intros H. unfold glob. rewrite H. f_equal.
  induction (scandir fs d) as [|n l IH]; [reflexivity|].
  cbn [filter]. rewrite fnmatch_any, IH. reflexivity.
Qed.

Lemma glob_all_extensions_same fs fs' d exts :
  is_dir fs' d = is_dir fs d -> scandir fs' d = scandir fs d ->
  glob_all_extensions fs' d exts = glob_all_extensions fs d exts.
Proof.
  intros H1 H2. unfold glob_all_extensions, glob. rewrite H1, H2. reflexivity.
Qed.

Lemma parse_arguments_valid ns w :
  is_dir (fs w) (images_directory_path ns) = true ->
  0 < image_duration ns -> 0 <= transition_duration ns ->
  parse_arguments (Ok ns) w = (Ok ns, w).
Proof.
  intros Hd Hi Ht. unfold parse_arguments, bind, lift. rewrite Hd. cbn [negb].
  replace (image_duration ns <=? 0) with false by (symmetry; apply Z.leb_gt; lia).
  replace (transition_duration ns <? 0) with false by (symmetry; apply Z.ltb_ge; lia).
  reflexivity.
Qed.

Lemma mkdir_parents_creates target fs :
  (forall q c, above q target -> lookup fs q <> Some (File c)) ->
  exists fs',
    mkdir_parents_exist_ok target fs = (Ok tt, fs') /\
    dir_chain fs' target /\ grown target fs fs'.
Proof.
  intros Hf. unfold mkdir_parents_exist_ok.
  assert (E : mkPath (root target) (rev (rev (parts target))) = target)
    by (rewrite rev_involutive; destruct target; reflexivity).
  destruct (mkdir_rec_creates target (root target) (rev (parts target)) fs)
    as (fs' & H1 & H2 & H3).
  - rewrite E. apply above_refl.
  - exact Hf.
  - exists fs'. rewrite E in H2. auto.
Qed.

Lemma writelines_ok lines :
  forall written,
    forallb encodable lines = true ->
    writelines lines written = (Ok tt, written ++ descriptor_text lines).
Proof.
  induction lines as [|line lines IH]; intros written H.
  - cbn. rewrite append_nil_r. reflexivity.
  - cbn [forallb] in H. apply andb_true_iff in H. destruct H as [Hl Hr].
    cbn [writelines]. rewrite Hl, (IH _ Hr), descriptor_text_cons, append_assoc.
    reflexivity.
Qed.

Lemma write_lines_ok p lines fs :
  resolve_parent fs p = Ok tt -> is_dir fs p = false ->
  forallb encodable lines = true ->
  write_lines p lines fs = (Ok tt, store fs p (File (descriptor_text lines))).
Proof.
  intros Hr Hd Hl. unfold write_lines, open_w. rewrite Hr.
  unfold is_dir in Hd.
  destruct (lookup fs p) as [[c|]|]; try discriminate;
    rewrite (writelines_ok lines "" Hl), store_store; reflexivity.
Qed.

Lemma image_is_entry fs dir image :
  In image (glob_all_extensions fs dir extensions) ->
  exists n, In n (scandir fs dir) /\ image = child dir n.
Proof.
  rewrite glob_all_extensions_by_suffix.
  destruct (is_dir fs dir); [|contradiction].
  intros H. apply in_map_iff in H. destruct H as (n & <- & Hn).
  exists n. split; [|reflexivity].
  repeat (apply in_app_or in Hn; destruct Hn as [Hn|Hn]);
    apply filter_In in Hn; tauto.
Qed.

Lemma destination_encodable target src n :
  entry_name n = true -> encodable (path_str target) = true ->
  encodable n = true ->
  encodable (destination target (child src n)) = true.
Proof.
  intros Hn Ht He. unfold destination.
  rewrite name_child, (joinpath_entry target n Hn), path_str_child.
  destruct (parts target).
  - apply encodable_app; [|exact He]. destruct (root target); reflexivity.
  - apply encodable_app; [exact Ht|]. apply encodable_app; [reflexivity|exact He].
Qed.

(** A run of [main] on a stageable file system. *)
Lemma main_stages_run (ns : Namespace) (w : World) :
  stageable ns (fs w) ->
  exists w' content,
    main (Ok ns) w = (Ok 0, w') /\
    stdout w' = (stdout w ++ progress_lines ns)%list /\
    is_dir (fs w') (target_directory ns) = true /\
    xml_content (glob_all_extensions (fs w) (images_directory_path ns)
                                     extensions)
                (image_duration ns) (transition_duration ns)
                (target_directory ns) = Ok content /\
    lookup (fs w') (xml_file_path (target_directory ns))
      = Some (File (descriptor_text content)) /\
    (forall n, In n (scandir (fs w) (images_directory_path ns)) ->
               lookup (fs w') (child (target_directory ns) n)
               = lookup (fs w) (child (images_directory_path ns) n)) /\
    (forall p, exists_ (fs w) p = true -> parent p <> target_directory ns ->
               lookup (fs w') p = lookup (fs w) p).
Proof.
  intros (Hsrc & Hd & Ht & Hnab & Hnf & Hxd & Hent & _ & _ & _ & Het).
  set (src := images_directory_path ns) in *.
  set (target := target_directory ns) in *.
  assert (Hne : src <> target).
  { intros E. apply Hnab. rewrite E. apply above_refl. }
  pose proof (entry_name_xml _ (target_directory_no_slash ns)) as Hxn.
  fold target in Hxn.
  assert (Hx : xml_file_path target = child target (name target ++ ".xml")).
  { unfold xml_file_path. apply joinpath_entry. exact Hxn. }
  rewrite main_eq.
  rewrite (parse_arguments_valid ns w (dir_chain_self _ _ Hsrc))
    by lia.
  cbv zeta. cbn [fs stdout]. fold target. fold src.
  (* the target directory *)
  destruct (mkdir_parents_creates target (fs w) Hnf) as (fs1 & E1 & Hd1 & Hg1).
  unfold on_fs at 1. cbn [fs stdout]. rewrite E1. cbn [fs stdout].
  assert (Hsrc1 : dir_chain fs1 src) by (apply (dir_chain_grown target (fs w)); auto).
  assert (Hscan1 : scandir fs1 src = scandir (fs w) src)
    by (destruct Hg1 as [_ Hs]; apply Hs; exact Hnab).
  (* the descriptor *)
  rewrite create_xml_file_eq. cbn [fs stdout].
  assert (Hdir1 : is_dir fs1 src = is_dir (fs w) src)
    by (rewrite (dir_chain_self _ _ Hsrc1), (dir_chain_self _ _ Hsrc);
        reflexivity).
  rewrite (glob_all_extensions_same (fs w) fs1 src extensions Hdir1 Hscan1).
  destruct (int_mul_float_limit (image_duration ns)) as [Hok _].
  destruct Hok as [seconds Hs]; [rewrite Z.abs_eq; lia|].
  pose proof (xml_content_closed (glob_all_extensions (fs w) src extensions)
                (image_duration ns) (transition_duration ns) target seconds Hs)
    as Hc.
  rewrite Hc. set (content := (initial_xml ++ _)%list) in *.
  assert (Hxd1 : is_dir fs1 (xml_file_path target) = false).
  { destruct Hg1 as [Hl _]. unfold is_dir.
    destruct (Hl (xml_file_path target)) as [E|(_ & _ & Ha)].
    - rewrite E. exact Hxd.
    - rewrite Hx in Ha. now apply not_above_child in Ha. }
  assert (Henc : forallb encodable content = true).
  { apply xml_content_encodable with (2 := Hc). intros image Hi.
    destruct (image_is_entry _ _ _ Hi) as (n & Hn & ->).
    destruct (Hent n Hn) as (Hn1 & _ & _ & _ & Hn5).
    now apply destination_encodable. }
  assert (Ew : write_lines (xml_file_path target) content fs1
               = (Ok tt, store fs1 (xml_file_path target)
                                (File (descriptor_text content)))).
  { apply write_lines_ok; [|exact Hxd1|exact Henc].
    rewrite Hx. apply (resolve_parent_child fs1 target _ Hd1). }
  unfold on_fs at 1. cbn [fs stdout]. rewrite Ew. cbn [fs stdout].
  set (fs2 := store fs1 (xml_file_path target) (File (descriptor_text content))).
  assert (Hl2 : forall q, q <> xml_file_path target -> lookup fs2 q = lookup fs1 q)
    by (intros q Hq; now apply lookup_store_other).
  assert (Hscan2 : scandir fs2 src = scandir (fs w) src).
  { unfold fs2. rewrite scandir_store_other; [exact Hscan1|].
    rewrite Hx, parent_child. congruence. }
  (* the copies *)
  unfold copy_images. cbn [fs stdout].
  assert (Hsrc2 : dir_chain fs2 src) by (now apply dir_chain_store_file).
  assert (Hd2 : dir_chain fs2 target) by (now apply dir_chain_store_file).
  rewrite (glob_star fs2 src (dir_chain_self _ _ Hsrc2)), Hscan2.
  assert (Hready : copy_ready src target fs2 (scandir (fs w) src)).
  { split; [exact Hsrc2|]. split; [exact Hd2|]. split; [exact Hne|].
    intros n Hn. destruct (Hent n Hn) as (Hn1 & [c Hn2] & Hn3 & Hn4 & _).
    split; [exact Hn1|]. split.
    - exists c. rewrite Hl2.
      + rewrite (grown_existing target (fs w) fs1 _ Hg1); [exact Hn2|].
        unfold exists_. rewrite Hn2. reflexivity.
      + rewrite Hx. intros E. apply child_inj in E. tauto.
    - unfold fs2. rewrite is_dir_store_file by exact Hxd1.
      destruct Hg1 as [Hl _]. unfold is_dir.
      destruct (Hl (child target n)) as [E|(_ & _ & Ha)].
      + rewrite E. exact Hn3.
      + now apply not_above_child in Ha. }
  destruct (copy_loop src target (scandir (fs w) src) fs2
              (stdout w
               ++ [nth 0 (progress_lines ns) ""]
               ++ [nth 1 (progress_lines ns) ""]
               ++ [nth 2 (progress_lines ns) ""])%list Hready)
    as (fs3 & Erun & Hcopied & Hframe).
  rewrite <- !app_assoc. cbn [app]. cbn [app] in Erun. rewrite Erun.
  exists (mkWorld fs3 (stdout w ++ progress_lines ns)%list), content.
  assert (Hxne : forall n, In n (scandir (fs w) src) ->
                           xml_file_path target <> child target n).
  { intros n Hn E. rewrite Hx in E. apply child_inj in E.
    destruct (Hent n Hn) as (_ & _ & _ & Hn4 & _). destruct E as [_ E]. congruence. }
  split.
  { cbn [fs stdout]. rewrite <- !app_assoc. reflexivity. }
  cbn [fs stdout]. split; [reflexivity|]. split.
  { unfold is_dir. rewrite Hframe.
    - apply (dir_chain_self _ _ Hd2).
    - intros n _ E. apply (not_above_child target n). rewrite <- E.
      apply above_refl. }
  split; [reflexivity|]. split.
  { rewrite Hframe by exact Hxne. unfold fs2. apply lookup_store_same.
    rewrite Hx. apply parts_child. }
  split.
  - intros n Hn. rewrite (Hcopied n Hn), Hl2.
    + apply (grown_existing target (fs w) fs1 _ Hg1).
      destruct (Hent n Hn) as (_ & [c Hc2] & _). unfold exists_. rewrite Hc2.
      reflexivity.
    + rewrite Hx. intros E. apply child_inj in E. tauto.
  - intros p Hp Hpar. rewrite Hframe, Hl2.
    + apply (grown_existing target (fs w) fs1 _ Hg1 Hp).
    + intros E. apply Hpar. rewrite E, Hx. apply parent_child.
    + intros n _ E. apply Hpar. rewrite E. apply parent_child.
Qed.

(** X12. A whole run of [main], under these conditions ([stageable]):
    the source directory exists with every directory above it and is
    neither the target directory nor a directory above it; the image
    duration is positive and below 2^1024 - 2^970, the transition
    duration is not negative; no regular file is in the place of the
    target directory or of a directory above it; the path of the
    descriptor file is not a directory; every entry of the source
    directory is a regular file whose name is one a directory scan can
    return (not empty, not ".", without slash), is valid UTF-8, is not
    the name of the descriptor file and is not the name of a directory of
    the target directory; the source and the target directory are given
    by absolute paths without ".." part, and these paths are valid UTF-8.
    Then [main] returns 0 after printing its four lines: the target
    directory is a directory, the descriptor of the source images is in
    its file, every entry of the source directory has a copy of the same
    name and content in the target directory, and every path that
    existed and is not an entry of the target directory keeps its
    node. *)
Theorem main_stages (ns : Namespace) (w : World) :
  stageable ns (fs w) ->
  exists w' content,
    main (Ok ns) w = (Ok 0, w') /\
    stdout w' = (stdout w ++ progress_lines ns)%list /\
    is_dir (fs w') (target_directory ns) = true /\
    xml_content (glob_all_extensions (fs w) (images_directory_path ns)
                                     extensions)
                (image_duration ns) (transition_duration ns)
                (target_directory ns) = Ok content /\
    lookup (fs w') (xml_file_path (target_directory ns))
      = Some (File (descriptor_text content)) /\
    (forall n, In n (scandir (fs w) (images_directory_path ns)) ->
               lookup (fs w') (child (target_directory ns) n)
               = lookup (fs w) (child (images_directory_path ns) n)) /\
    (forall p, exists_ (fs w) p = true -> parent p <> target_directory ns ->
               lookup (fs w') p = lookup (fs w) p).
Proof. apply main_stages_run. Qed.

(** The scenario's disk can be staged. *)
Ltac scenario_stageable :=
  split; [|split; [|split; [|split; [|split; [|split; [|split; [|split;
    [|split; [|split]]]]]]]]];
  [ intros k Hk; do 4 (destruct k as [|k]; [reflexivity|]); cbn in Hk; lia
  | split; reflexivity
  | discriminate
  | intros [_ [k Hk]]; do 5 (destruct k as [|k]; [discriminate Hk|]);
    discriminate Hk
  | intros [rq pq] c [Hr [k Hk]]; cbn [root parts] in Hr, Hk; subst rq pq;
    do 5 (destruct k as [|k]; [vm_compute; discriminate|]);
    vm_compute; discriminate
  | reflexivity
  | intros n Hn; vm_compute in Hn;
    repeat (destruct Hn as [<-|Hn];
            [split; [reflexivity|split; [eexists; reflexivity|
              split; [reflexivity|split; [discriminate|reflexivity]]]]|]);
    contradiction
  | split; [reflexivity|vm_compute; intuition discriminate]
  | split; [reflexivity|vm_compute; intuition discriminate]
  | reflexivity
  | reflexivity ].

Lemma main_stages_witness :
  stageable (mkNamespace Scenario.source 5 3 None) Scenario.disk /\
  exists w' content,
    main (Ok (mkNamespace Scenario.source 5 3 None)) Scenario.world = (Ok 0, w') /\
    lookup (fs w') (parse_path "/usr/share/backgrounds/pictures/pictures.xml")
      = Some (File (descriptor_text content)) /\
    lookup (fs w') (parse_path "/usr/share/backgrounds/pictures/b.png")
      = Some (File "image b").
Proof.
  assert (Hs : stageable (mkNamespace Scenario.source 5 3 None) Scenario.disk)
    by scenario_stageable.
  split; [exact Hs|].
  destruct (main_stages (mkNamespace Scenario.source 5 3 None) Scenario.world Hs)
    as (w' & content & Hm & _ & _ & _ & Hx & Hc & _).
  exists w', content. split; [exact Hm|]. split; [exact Hx|].
  apply (Hc "b.png"). vm_compute. tauto.
Defined.

Lemma for_each_app {A} (xs ys : list A) (body : A -> M unit) w :
  for_each (xs ++ ys) body w =
  match for_each xs body w with
  | (Ok _, w1) => for_each ys body w1
  | (Raise e, w1) => (Raise e, w1)
  end.
Proof.
  revert w. induction xs as [|x xs IH]; intros w; [reflexivity|].
  cbn [app for_each]. unfold bind.
  destruct (body x w) as [[u|e] w1]; [apply IH|reflexivity].
Qed.

(** X13. The copy loop stops at the first entry that is a directory.
    Let the source and the target directory be two different
    directories, given by absolute paths without ".." part, that exist
    with every directory above them; let the scan of the source directory
    return the entries [before], then [n], then [after], all entries of
    [before] being regular files with names a directory scan can return
    and no directory of the target directory having the name of one of
    them; let [n] be such a name too and the entry [n] a directory, while
    the target directory holds no directory named [n].  Then
    [shutil.copy] raises [IsADirectoryError] for the entry [n], nothing
    is printed, the entries of [before] have been copied and every other
    path is as before. *)
Theorem copy_stops_at_directory (w : World) (src target : Path)
  (before after : list string) (n : string) :
  plain src -> plain target ->
  scandir (fs w) src = (before ++ n :: after)%list ->
  copy_ready src target (fs w) before ->
  entry_name n = true ->
  lookup (fs w) (child src n) = Some Dir ->
  is_dir (fs w) (child target n) = false ->
  exists fs',
    copy_images src target w
      = (Raise (IsADirectoryError (child src n)), mkWorld fs' (stdout w)) /\
    (forall m, In m before ->
               lookup fs' (child target m) = lookup (fs w) (child src m)) /\
    (forall p, (forall m, In m before -> p <> child target m) ->
               lookup fs' p = lookup (fs w) p).
Proof.
  intros _ _ Hscan Hready Hn Hdir Htn.
  pose proof Hready as (Hs & Ht & Hne & Hent).
  unfold copy_images.
  rewrite (glob_star _ _ (dir_chain_self _ _ Hs)), Hscan, map_app, for_each_app.
  destruct (copy_loop src target before (fs w) (stdout w) Hready)
    as (fs' & Erun & Hcopied & Hframe).
  rewrite world_eta in Erun. rewrite Erun.
  exists fs'. split; [|split; assumption].
  cbn [map for_each]. unfold bind, on_fs. cbn [fs stdout].
  assert (Hsrc' : lookup fs' (child src n) = Some Dir).
  { rewrite Hframe; [exact Hdir|].
    intros m _ E. apply child_inj in E. tauto. }
  assert (Htn' : is_dir fs' (child target n) = false).
  { unfold is_dir. destruct (in_dec string_dec n before) as [Hin|Hnin].
    - rewrite (Hcopied n Hin), Hdir.
      destruct (Hent n Hin) as (_ & [c Hc] & _). congruence.
    - rewrite Hframe; [exact Htn|].
      intros m Hm E. apply child_inj in E. destruct E as [_ <-]. contradiction. }
  assert (Hs' : dir_chain fs' src).
  { intros k Hk. unfold is_dir. rewrite Hframe; [now apply Hs|].
    intros m Hm E. destruct (Hent m Hm) as (_ & _ & Hf).
    rewrite <- E, (Hs k Hk) in Hf. discriminate. }
  rewrite name_child, (joinpath_entry target n Hn).
  unfold shutil_copy. rewrite Htn'. unfold copyfile.
  replace (Path_eqb (child src n) (child target n)) with false.
  2:{ symmetry. apply Path_eqb_neq. intros E. apply child_inj in E. tauto. }
  cbn [andb]. unfold read_file.
  rewrite (resolve_parent_child fs' src n Hs'), Hsrc'. reflexivity.
Qed.

Lemma copy_stops_at_directory_witness :
  exists fs',
    copy_images Scenario.source Scenario.dest
      (mkWorld (Scenario.disk ++ [(child Scenario.source "old", Dir)])%list [])
    = (Raise (IsADirectoryError (child Scenario.source "old")),
       mkWorld fs' []) /\
    lookup fs' (child Scenario.dest "c.jpeg") = Some (File "image c").
Proof.
  destruct (copy_stops_at_directory
              (mkWorld (Scenario.disk ++ [(child Scenario.source "old", Dir)])%list [])
              Scenario.source Scenario.dest ["a.jpg"; "b.png"; "c.jpeg"] [] "old")
    as (fs' & Hr & Hc & _).
  - split; [reflexivity|vm_compute; intuition discriminate].
  - split; [reflexivity|vm_compute; intuition discriminate].
  - reflexivity.
  - split; [|split; [|split]].
    + intros k Hk. do 4 (destruct k as [|k]; [reflexivity|]). cbn in Hk. lia.
    + intros k Hk. do 3 (destruct k as [|k]; [reflexivity|]). cbn in Hk. lia.
    + discriminate.
    + intros m Hm.
      repeat (destruct Hm as [<-|Hm];
              [split; [reflexivity|split; [eexists|]; reflexivity]|]).
      contradiction.
  - reflexivity.
  - reflexivity.
  - reflexivity.
  - exists fs'. split; [exact Hr|]. rewrite (Hc "c.jpeg"); [reflexivity|].
    cbn. tauto.
Defined.

Lemma main_keeps_paths_witness :
  is_dir Scenario.disk Scenario.source = true /\
  is_dir (fs (snd (main (Ok (mkNamespace Scenario.source 5 3 None))
                        Scenario.world))) Scenario.source = true.
Proof.
  split; [reflexivity|].
  apply (main_keeps_paths (Ok (mkNamespace Scenario.source 5 3 None))
                          Scenario.world Scenario.source).
  reflexivity.
Defined.

(** X14. The target directory is the entry of /usr/share/backgrounds
    named by the -n option, or by the source directory when the option
    is absent or empty; a rooted -n value replaces /usr/share/backgrounds
    altogether. *)
Theorem target_directory_cases (ns : Namespace) :
  (forall s, directory_name ns = Some s -> entry_name s = true ->
             target_directory ns = child USR_BACKGROUNDS_PATH s) /\
  (directory_name ns = None \/ directory_name ns = Some "" ->
   entry_name (name (images_directory_path ns)) = true ->
   target_directory ns
   = child USR_BACKGROUNDS_PATH (name (images_directory_path ns))) /\
  (forall s, directory_name ns = Some s -> root (parse_path s) <> NoRoot ->
             target_directory ns = parse_path s).
Proof.
  unfold target_directory. split; [|split].
  - intros s E Hs. rewrite E.
    assert (Es : or_else (Some s) (name (images_directory_path ns)) = s)
      by (destruct s; [discriminate Hs|reflexivity]).
    rewrite Es. now apply joinpath_entry.
  - intros E Hn.
    assert (Es : or_else (directory_name ns) (name (images_directory_path ns))
                 = name (images_directory_path ns))
      by (destruct E as [-> | ->]; reflexivity).
    rewrite Es. now apply joinpath_entry.
  - intros s E Hr. rewrite E.
    assert (Es : or_else (Some s) (name (images_directory_path ns)) = s)
      by (destruct s; [now elim Hr|reflexivity]).
    rewrite Es. unfold joinpath. destruct (root (parse_path s)); [now elim Hr| |];
      reflexivity.
Qed.

Lemma target_directory_cases_witness :
  path_str (target_directory (mkNamespace Scenario.source 5 3 (Some "holiday")))
    = "/usr/share/backgrounds/holiday" /\
  path_str (target_directory (mkNamespace Scenario.source 5 3 None))
    = "/usr/share/backgrounds/pictures" /\
  path_str (target_directory (mkNamespace Scenario.source 5 3 (Some "/tmp/show")))
    = "/tmp/show".
Proof.
  split; [|split].
  - destruct (target_directory_cases
                (mkNamespace Scenario.source 5 3 (Some "holiday"))) as (H & _ & _).
    rewrite (H "holiday"); reflexivity.
  - destruct (target_directory_cases
                (mkNamespace Scenario.source 5 3 None)) as (_ & H & _).
    rewrite H; [reflexivity|left; reflexivity|reflexivity].
  - destruct (target_directory_cases
                (mkNamespace Scenario.source 5 3 (Some "/tmp/show"))) as (_ & _ & H).
    rewrite (H "/tmp/show"); [reflexivity|reflexivity|discriminate].
Defined.

(** X15. Under the conditions of a whole run ([stageable]: the source
    directory exists with every directory above it and is neither the
    target directory nor a directory above it; the image duration is
    positive and below 2^1024 - 2^970, the transition duration is not
    negative; no regular file is in the place of the target directory or
    of a directory above it; the path of the descriptor file is not a
    directory; every entry of the source directory is a regular file
    whose name is one a directory scan can return, is valid UTF-8, is not
    the name of the descriptor file and is not the name of a directory of
    the target directory; the source and the target directory are given
    by absolute paths without ".." part, and these paths are valid
    UTF-8), [main] returns 0 and the descriptor it leaves is valid: the
    file paths of its static segments are the destinations of the
    enumerated images, and each of them is the path of a file of the
    target directory that holds the content of the source image. *)
Theorem descriptor_paths_are_staged (ns : Namespace) (w : World) :
  stageable ns (fs w) ->
  exists w' content,
    main (Ok ns) w = (Ok 0, w') /\
    lookup (fs w') (xml_file_path (target_directory ns))
      = Some (File (descriptor_text content)) /\
    static_files content
      = map (destination (target_directory ns))
            (glob_all_extensions (fs w) (images_directory_path ns) extensions) /\
    forall image,
      In image (glob_all_extensions (fs w) (images_directory_path ns)
                                    extensions) ->
      exists n c,
        destination (target_directory ns) image
          = path_str (child (target_directory ns) n) /\
        lookup (fs w) image = Some (File c) /\
        lookup (fs w') (child (target_directory ns) n) = Some (File c).
Proof.
  intros Hst.
  destruct (main_stages_run ns w Hst)
    as (w' & content & Hm & _ & _ & Hc & Hx & Hcopied & _).
  exists w', content. split; [exact Hm|]. split; [exact Hx|].
  destruct Hst as (Hsrc & Hd & _ & _ & _ & _ & Hent & _).
  destruct (int_mul_float_limit (image_duration ns)) as [Hok _].
  destruct Hok as [seconds Hs]; [rewrite Z.abs_eq; lia|].
  destruct (xml_content_read
              (glob_all_extensions (fs w) (images_directory_path ns) extensions)
              (image_duration ns) (transition_duration ns)
              (target_directory ns) seconds Hs)
    as (content' & Hc' & _ & _ & _ & Hfiles & _).
  rewrite Hc in Hc'. injection Hc' as <-.
  split; [exact Hfiles|].
  intros image Hin. rewrite glob_all_extensions_by_suffix in Hin.
  destruct (is_dir (fs w) (images_directory_path ns)); [|contradiction].
  apply in_map_iff in Hin. destruct Hin as (n & <- & Hn).
  assert (Hscan : In n (scandir (fs w) (images_directory_path ns))).
  { rewrite !in_app_iff, !filter_In in Hn. tauto. }
  destruct (Hent n Hscan) as (Hn1 & [c Hn2] & _).
  exists n, c. split; [|split].
  - unfold destination. rewrite name_child, (joinpath_entry _ n Hn1). reflexivity.
  - exact Hn2.
  - rewrite (Hcopied n Hscan). exact Hn2.
Qed.

Lemma descriptor_paths_are_staged_witness :
  stageable (mkNamespace Scenario.source 5 3 None) Scenario.disk /\
  exists w' content,
    main (Ok (mkNamespace Scenario.source 5 3 None)) Scenario.world = (Ok 0, w') /\
    static_files content
      = ["/usr/share/backgrounds/pictures/a.jpg";
         "/usr/share/backgrounds/pictures/c.jpeg";
         "/usr/share/backgrounds/pictures/b.png"].
Proof.
  assert (Hs : stageable (mkNamespace Scenario.source 5 3 None) Scenario.disk)
    by scenario_stageable.
  split; [exact Hs|].
  destruct (descriptor_paths_are_staged
              (mkNamespace Scenario.source 5 3 None) Scenario.world Hs)
    as (w' & content & Hm & _ & Hf & _).
  exists w', content. split; [exact Hm|]. rewrite Hf. reflexivity.
Defined.
